(** * ticketpy.query: parameter normalisation and request assembly

    A shallow embedding of [src/ticketpy/query.py]: the keyword-argument
    dictionaries are finite maps from strings to Python scalars, the calls
    into the API client are the nodes of a small request tree, and the
    exceptions Python raises while binding arguments or indexing a dict are
    explicit results. *)

From Stdlib Require Import ZArith String Ascii List.
From stdpp Require Import base decidable option list gmap strings fin_maps.

Local Open Scope string_scope.
Local Open Scope Z_scope.

(** ** Python scalars *)

(** A binary64 number.  [DFinite neg m e] is the double [(-1)^neg * m * 2^e];
    [PyFloat.of_rational] builds it with [2^52 <= m < 2^53] or [e = -1074].
    The same number written with another [m] and [e] is the same double, and
    a product [m * 2^e] that is no double stands for the double nearest to
    it: [PyFloat.repr] reads every encoding through [PyFloat.nearest]. *)
Inductive double : Type :=
| DNan
| DInf (neg : bool)
| DZero (neg : bool)
| DFinite (neg : bool) (m : positive) (e : Z).

(** The values a caller passes as search filters. *)
Inductive pyval : Type :=
| PyNone
| PyBool (b : bool)
| PyInt (z : Z)
| PyFloat (f : double)
| PyStr (s : string).

#[global] Instance double_eq_dec : EqDecision double.
Proof. solve_decision. Defined.

#[global] Instance pyval_eq_dec : EqDecision pyval.
Proof. solve_decision. Defined.

(** [bool(v)]: the values Python treats as false are [None], [False], zero
    and the empty string. *)
Definition truthy (v : pyval) : bool :=
  match v with
  | PyNone => false
  | PyBool b => b
  | PyInt z => negb (z =? 0)
  | PyFloat (DZero _) => false
  | PyFloat _ => true
  | PyStr s => negb (String.eqb s "")
  end.

Module PyFloat.

(** Round the positive rational [n / d] to the nearest binary64, ties to
    even: the result is [(m, e)] standing for [m * 2^e], with
    [m < 2^53] and [e >= -1074]. *)
Definition nearest (n d : Z) : Z * Z :=
  let e1 := Z.log2 n - Z.log2 d - 53 in
  let scaled e := if 0 <=? e then (n, d * 2 ^ e) else (n * 2 ^ (- e), d) in
  let e2 := let '(a, b) := scaled e1 in if 2 ^ 53 <=? a / b then e1 + 1 else e1 in
  let e := Z.max e2 (-1074) in
  let '(a, b) := scaled e in
  let q := a / b in
  let r := a mod b in
  let q' := if (b <? 2 * r) || ((b =? 2 * r) && Z.odd q) then q + 1 else q in
  if q' =? 2 ^ 53 then (2 ^ 52, e + 1) else (q', e).

Definition of_rational (neg : bool) (n d : Z) : double :=
  if n <=? 0 then DZero neg
  else
    let '(m, e) := nearest n d in
    if 971 <? e then DInf neg
    else match m with
         | Zpos p => DFinite neg p e
         | _ => DZero neg
         end.

(** The float a decimal literal denotes: [digits * 10^exp10], rounded. *)
Definition of_decimal (neg : bool) (digits exp10 : Z) : double :=
  if 0 <=? exp10 then of_rational neg (digits * 10 ^ exp10) 1
  else of_rational neg digits (10 ^ (- exp10)).

(** [m * 2^e] as a fraction. *)
Definition to_rational (m : positive) (e : Z) : Z * Z :=
  if 0 <=? e then (Zpos m * 2 ^ e, 1) else (Zpos m, 2 ^ (- e)).

(** The decimal point position [p] of [n / d]: [10^(p-1) <= n/d < 10^p]. *)
Fixpoint adjust_up (fuel : nat) (n d p : Z) : Z :=
  match fuel with
  | O => p
  | S fuel' =>
      let ge := if 0 <=? p then d * 10 ^ p <=? n else d <=? n * 10 ^ (- p) in
      if ge then adjust_up fuel' n d (p + 1) else p
  end.

Definition decpt (n d : Z) : Z :=
  let est := (Z.log2 n - Z.log2 d) * 30103 / 100000 - 1 in
  adjust_up 4 n d est.

(** [n / d] scaled by [10^(-s)]. *)
Definition scale10 (n d s : Z) : Z * Z :=
  if 0 <=? s then (n, d * 10 ^ s) else (n * 10 ^ (- s), d).

Definition reads_back (m : positive) (e : Z) (c s : Z) : bool :=
  let '(n, d) := if 0 <=? s then (c * 10 ^ s, 1) else (c, 10 ^ (- s)) in
  if n <=? 0 then false
  else let '(m', e') := nearest n d in (m' =? Zpos m) && (e' =? e).

(** The shortest digit string that reads back as the same double, and
    among those the one closest to it: the digits as a number [c] with
    the power of ten [s] it is scaled by. *)
Fixpoint shortest (fuel : nat) (k : Z) (m : positive) (e : Z) (p : Z) : Z * Z :=
  let '(n, d) := to_rational m e in
  let s := p - k in
  let '(a, b) := scale10 n d s in
  let lo := a / b in
  let hi := lo + 1 in
  let r := a mod b in
  let lo_first := (2 * r <? b) || ((2 * r =? b) && Z.even lo) in
  let c1 := if lo_first then lo else hi in
  let c2 := if lo_first then hi else lo in
  match fuel with
  | O => (c1, s)
  | S fuel' =>
      if reads_back m e c1 s then (c1, s)
      else if reads_back m e c2 s then (c2, s)
      else shortest fuel' (k + 1) m e p
  end.

Fixpoint strip_zeros (fuel : nat) (c s : Z) : Z * Z :=
  match fuel with
  | O => (c, s)
  | S fuel' => if (c mod 10 =? 0) && (0 <? c) then strip_zeros fuel' (c / 10) (s + 1) else (c, s)
  end.

Definition digit_char (z : Z) : ascii := ascii_of_N (48 + Z.to_N z).

Fixpoint digits_acc (fuel : nat) (z : Z) (acc : string) : string :=
  match fuel with
  | O => acc
  | S fuel' =>
      let acc' := String (digit_char (z mod 10)) acc in
      if z <? 10 then acc' else digits_acc fuel' (z / 10) acc'
  end.

(** The decimal digits of a natural number. *)
Definition digits (z : Z) : string :=
  digits_acc (S (Z.to_nat (Z.log2 z))) z "".

Fixpoint zeros (n : nat) : string :=
  match n with
  | O => ""
  | S n' => String "0" (zeros n')
  end.

(** [pre n s] and [post n s]: [s[:n]] and [s[n:]]. *)
Definition pre (n : nat) (s : string) : string := substring 0 n s.
Definition post (n : nat) (s : string) : string := substring n (String.length s - n) s.

(** [repr] of the positive double [m * 2^e], [2^52 <= m < 2^53] or
    [e = -1074]: exponent notation when the decimal point falls at or before
    [-4] or after [16], a plain decimal with at least one digit after the
    point otherwise. *)
Definition repr_normal (m : positive) (e : Z) : string :=
  let '(n, d) := to_rational m e in
  let p := decpt n d in
  let '(c0, s0) := shortest 17 1 m e p in
  let '(c, s) := strip_zeros 20 c0 s0 in
  let ds := digits c in
  let nd := Z.of_nat (String.length ds) in
  let pt := s + nd in
  if (pt <=? -4) || (16 <? pt) then
    let x := pt - 1 in
    let mant := if nd =? 1 then ds else pre 1 ds ++ "." ++ post 1 ds in
    let ex := digits (Z.abs x) in
    mant ++ "e" ++ (if x <? 0 then "-" else "+")
         ++ (if Z.abs x <? 10 then "0" else "") ++ ex
  else if pt <=? 0 then "0." ++ zeros (Z.to_nat (- pt)) ++ ds
  else if nd <=? pt then ds ++ zeros (Z.to_nat (pt - nd)) ++ ".0"
  else pre (Z.to_nat pt) ds ++ "." ++ post (Z.to_nat pt) ds.

(** [repr] of the positive double that [m * 2^e] encodes, whatever the
    encoding: the number is brought to its normal form first. *)
Definition repr_finite (m : positive) (e : Z) : string :=
  let '(n, d) := to_rational m e in
  match nearest n d with
  | (Zpos m', e') => if 971 <? e' then "inf" else repr_normal m' e'
  | _ => "0.0"
  end.

Definition sign (neg : bool) : string := if neg then "-" else "".

Definition repr (f : double) : string :=
  match f with
  | DNan => "nan"
  | DInf neg => sign neg ++ "inf"
  | DZero neg => sign neg ++ "0.0"
  | DFinite neg m e => sign neg ++ repr_finite m e
  end.

End PyFloat.


(** ** Exceptions *)

Inductive exn : Type :=
| TypeError
| AttributeError
| ValueError
| KeyError (key : string)
| ClientError (msg : string).

#[global] Instance exn_eq_dec : EqDecision exn.
Proof. solve_decision. Defined.

Definition result (A : Type) : Type := exn + A.

Definition rbind {A B : Type} (m : result A) (f : A -> result B) : result B :=
  match m with
  | inl e => inl e
  | inr a => f a
  end.

Notation "'let*' x ':=' m 'in' k" := (rbind m (fun x => k))
  (at level 10, x pattern, m at level 100, k at level 200).

(** ** Conversion to text *)

(** [sys.get_int_max_str_digits()] as the interpreter starts: [str] of an
    integer with more decimal digits than this raises [ValueError]. *)
Definition int_max_str_digits : Z := 4300.

(** [str(v)] on scalars.  An integer is written in decimal; its digits are
    counted, the sign apart, and more than [int_max_str_digits] of them is
    a [ValueError]. *)
Definition py_str (v : pyval) : result string :=
  match v with
  | PyNone => inr "None"
  | PyBool true => inr "True"
  | PyBool false => inr "False"
  | PyInt z =>
      let ds := PyFloat.digits (Z.abs z) in
      if int_max_str_digits <? Z.of_nat (String.length ds) then inl ValueError
      else inr ((if z <? 0 then "-" else "") ++ ds)
  | PyFloat f => inr (PyFloat.repr f)
  | PyStr s => inr s
  end.

(** ** Dictionaries *)

Abbreviation dict := (gmap string pyval).

#[global] Instance pyval_inhabited : Inhabited pyval := populate PyNone.

(** [k in d] *)
Definition contains (d : dict) (k : string) : bool := bool_decide (is_Some (d !! k)).

(** [d[k]] *)
Definition getitem (d : dict) (k : string) : result pyval :=
  match d !! k with
  | Some v => inr v
  | None => inl (KeyError k)
  end.

(** [del d[k]] *)
Definition delitem (d : dict) (k : string) : result dict :=
  if contains d k then inr (delete k d) else inl (KeyError k).

(** [d.update({k1: v1, ...})] *)
Definition update (d : dict) (items : list (string * pyval)) : dict :=
  foldl (fun d kv => <[kv.1 := kv.2]> d) d items.

(** ** Binding the arguments of a call *)

(** A signature lists the parameters after [self] in declaration order, each
    with its default ([None] here: the parameter is required). The function
    ends in [**kwargs]. *)
Definition signature : Type := list (string * option pyval).

Definition param_names (ps : signature) : list string := ps.*1.

(** Positional arguments fill the parameters from the left. *)
Fixpoint bind_positional (ps : signature) (pos : list pyval) {struct pos}
  : option (list (string * pyval) * signature) :=
  match pos with
  | [] => Some ([], ps)
  | v :: pos' =>
      match ps with
      | [] => None
      | (n, _) :: ps' =>
          match bind_positional ps' pos' with
          | Some (bound, rest) => Some ((n, v) :: bound, rest)
          | None => None
          end
      end
  end.

(** The other parameters take the keyword of their name, or their default. *)
Fixpoint bind_keywords (ps : signature) (kw : dict) : option (list (string * pyval)) :=
  match ps with
  | [] => Some []
  | (n, d) :: ps' =>
      match (match kw !! n with Some v => Some v | None => d end) with
      | Some v =>
          match bind_keywords ps' kw with
          | Some named => Some ((n, v) :: named)
          | None => None
          end
      | None => None
      end
  end.

(** The locals of a call of a method [f(self, <ps>, **kwargs)] with the
    positional arguments [pos] and the keyword arguments [kw], or the
    [TypeError] Python raises for too many positional arguments, a
    parameter given twice or a required parameter left out. *)
Definition bind_locals (ps : signature) (pos : list pyval) (kw : dict) : result dict :=
  if contains kw "self" then inl TypeError
  else
    match bind_positional ps pos with
    | None => inl TypeError
    | Some (bound, rest) =>
        if existsb (fun nv => contains kw nv.1) bound then inl TypeError
        else
          match bind_keywords rest kw with
          | None => inl TypeError
          | Some named => inr (list_to_map (bound ++ named)%list)
          end
    end.

(** The locals together with the dictionary collected in [kwargs]: the
    keywords that name no parameter. *)
Definition bind_args (ps : signature) (pos : list pyval) (kw : dict) : result (dict * dict) :=
  let* l := bind_locals ps pos kw in
  inr (l, filter (fun kv => kv.1 ∉ param_names ps) kw).

(** [f(k1=v1, ..., **kwargs)] on the caller's side: a key of [kwargs] that
    repeats an explicit keyword is a [TypeError]. *)
Definition keywords (explicit : list (string * pyval)) (kwargs : dict) : result dict :=
  if existsb (fun nv => contains kwargs nv.1) explicit then inl TypeError
  else inr (update kwargs explicit).

(** ** The query classes *)

Inductive query_type : Type :=
| AttractionQuery
| ClassificationQuery
| SegmentQuery
| GenreQuery
| SubGenreQuery
| EventQuery
| VenueQuery.

#[global] Instance query_type_eq_dec : EqDecision query_type.
Proof. solve_decision. Defined.

Inductive model_class : Type :=
| Venue | Event | Attraction | Classification | Genre | Subgenre | Segment.

Definition resource (self : query_type) : string :=
  match self with
  | AttractionQuery => "attractions"
  | ClassificationQuery => "classifications"
  | SegmentQuery => "classifications/segments"
  | GenreQuery => "classifications/genres"
  | SubGenreQuery => "classifications/subgenres"
  | EventQuery => "events"
  | VenueQuery => "venues"
  end.

Definition model (self : query_type) : model_class :=
  match self with
  | AttractionQuery => Attraction
  | ClassificationQuery => Classification
  | SegmentQuery => Segment
  | GenreQuery => Genre
  | SubGenreQuery => Subgenre
  | EventQuery => Event
  | VenueQuery => Venue
  end.

Definition _get_sig : signature :=
  [("keyword", Some PyNone); ("entity_id", Some PyNone); ("sort", Some PyNone);
   ("include_test", Some PyNone); ("page", Some PyNone); ("size", Some PyNone);
   ("locale", Some PyNone)].

Definition AttractionQuery_find_sig : signature :=
  [("sort", Some PyNone); ("keyword", Some PyNone); ("attraction_id", Some PyNone);
   ("source", Some PyNone); ("include_test", Some PyNone); ("page", Some PyNone);
   ("size", Some PyNone); ("locale", Some PyNone)].

Definition ClassificationQuery_find_sig : signature :=
  [("sort", Some PyNone); ("keyword", Some PyNone); ("classification_id", Some PyNone);
   ("source", Some PyNone); ("include_test", Some PyNone); ("page", Some PyNone);
   ("size", Some PyNone); ("locale", Some PyNone)].

Definition EventQuery_find_sig : signature :=
  [("sort", Some (PyStr "date,asc")); ("latlong", Some PyNone); ("radius", Some PyNone);
   ("unit", Some PyNone); ("start_date_time", Some PyNone); ("end_date_time", Some PyNone);
   ("onsale_start_date_time", Some PyNone); ("onsale_end_date_time", Some PyNone);
   ("country_code", Some PyNone); ("state_code", Some PyNone); ("venue_id", Some PyNone);
   ("attraction_id", Some PyNone); ("segment_id", Some PyNone); ("segment_name", Some PyNone);
   ("classification_name", Some PyNone); ("classification_id", Some PyNone);
   ("market_id", Some PyNone); ("promoter_id", Some PyNone); ("dma_id", Some PyNone);
   ("include_tba", Some PyNone); ("include_tbd", Some PyNone);
   ("client_visibility", Some PyNone); ("keyword", Some PyNone); ("event_id", Some PyNone);
   ("source", Some PyNone); ("include_test", Some PyNone); ("page", Some PyNone);
   ("size", Some PyNone); ("locale", Some PyNone)].

Definition VenueQuery_find_sig : signature :=
  [("keyword", Some PyNone); ("venue_id", Some PyNone); ("sort", Some PyNone);
   ("state_code", Some PyNone); ("country_code", Some PyNone); ("source", Some PyNone);
   ("include_test", Some PyNone); ("page", Some PyNone); ("size", Some PyNone);
   ("locale", Some PyNone)].

Definition by_location_sig : signature :=
  [("latitude", None); ("longitude", None); ("radius", Some (PyStr "10"));
   ("unit", Some (PyStr "miles")); ("sort", Some (PyStr "relevance,desc"))].

Definition by_name_sig : signature :=
  [("venue_name", None); ("state_code", Some PyNone)].

(** The [find] each class declares; [SegmentQuery], [GenreQuery] and
    [SubGenreQuery] declare none, and neither does their parent. *)
Definition find_sig (self : query_type) : option signature :=
  match self with
  | AttractionQuery => Some AttractionQuery_find_sig
  | ClassificationQuery => Some ClassificationQuery_find_sig
  | EventQuery => Some EventQuery_find_sig
  | VenueQuery => Some VenueQuery_find_sig
  | SegmentQuery | GenreQuery | SubGenreQuery => None
  end.

(** The parameter of [find] that is handed on as [entity_id]. *)
Definition find_entity (self : query_type) : string :=
  match self with
  | AttractionQuery => "attraction_id"
  | ClassificationQuery => "classification_id"
  | EventQuery => "event_id"
  | VenueQuery => "venue_id"
  | SegmentQuery | GenreQuery | SubGenreQuery => ""
  end.

(** The keywords [find] hands on under their own name. *)
Definition find_keywords (self : query_type) (l : dict) : list (string * pyval) :=
  match self with
  | AttractionQuery | ClassificationQuery => [("source", l !!! "source")]
  | EventQuery =>
      [("latlong", l !!! "latlong"); ("radius", l !!! "radius"); ("unit", l !!! "unit");
       ("start_date_time", l !!! "start_date_time");
       ("end_date_time", l !!! "end_date_time");
       ("onsale_start_date_time", l !!! "onsale_start_date_time");
       ("onsale_end_date_time", l !!! "onsale_end_date_time");
       ("country_code", l !!! "country_code"); ("state_code", l !!! "state_code");
       ("venue_id", l !!! "venue_id"); ("attraction_id", l !!! "attraction_id");
       ("segment_id", l !!! "segment_id"); ("segment_name", l !!! "segment_name");
       ("classification_name", l !!! "classification_name");
       ("classification_id", l !!! "classification_id");
       ("market_id", l !!! "market_id"); ("promoter_id", l !!! "promoter_id");
       ("dma_id", l !!! "dma_id"); ("include_tba", l !!! "include_tba");
       ("include_tbd", l !!! "include_tbd"); ("source", l !!! "source");
       ("client_visibility", l !!! "client_visibility")]
  | VenueQuery =>
      [("state_code", l !!! "state_code"); ("country_code", l !!! "country_code");
       ("source", l !!! "source")]
  | SegmentQuery | GenreQuery | SubGenreQuery => []
  end.

(** The positional arguments [find] passes to [_get]. *)
Definition find_positional (self : query_type) (l : dict) : list pyval :=
  [l !!! "keyword"; l !!! find_entity self; l !!! "sort"; l !!! "include_test";
   l !!! "page"; l !!! "size"; l !!! "locale"].

(** The dict [_get] builds from its parameters and [kwargs]. *)
Definition search_args (l kwargs : dict) : dict :=
  update kwargs
    [("keyword", l !!! "keyword"); ("id", l !!! "entity_id"); ("sort", l !!! "sort");
     ("include_test", l !!! "include_test"); ("page", l !!! "page");
     ("size", l !!! "size"); ("locale", l !!! "locale")].

(** The keys that [_get] sets itself. *)
Definition search_keys : list string :=
  ["keyword"; "id"; "sort"; "include_test"; "page"; "size"; "locale"].

(** A value that is [None] is not forwarded. *)
Definition not_none (o : option pyval) : option pyval :=
  match o with
  | Some PyNone => None
  | _ => o
  end.

(** ** Requests to the API client *)

Section Requests.

Context {Paged Json : Type}.

(** What a method does: it returns, raises, or asks the client for a
    search or for an object by its ID and goes on with the answer. *)
Inductive prog (A : Type) : Type :=
| Ret (a : A)
| Raise (e : exn)
| ApiSearch (resource : string) (params : dict) (k : Paged -> prog A)
| ApiGetId (resource : string) (entity_id : pyval) (k : Json -> prog A).

Arguments Ret {A} a.
Arguments Raise {A} e.
Arguments ApiSearch {A} resource params k.
Arguments ApiGetId {A} resource entity_id k.

Fixpoint pbind {A B : Type} (p : prog A) (f : A -> prog B) : prog B :=
  match p with
  | Ret a => f a
  | Raise e => Raise e
  | ApiSearch r ps k => ApiSearch r ps (fun x => pbind (k x) f)
  | ApiGetId r i k => ApiGetId r i (fun x => pbind (k x) f)
  end.

Definition lift {A : Type} (m : result A) : prog A :=
  match m with
  | inl e => Raise e
  | inr a => Ret a
  end.

(** The client: [_search(resource, **params)] and [_get_id(resource, id)]
    answer or raise, and may change the world [W] they live in. *)
Record api_client (W : Type) : Type := {
  _search : string -> dict -> W -> result Paged * W;
  _get_id : string -> pyval -> W -> result Json * W
}.

Inductive call : Type :=
| SearchCall (resource : string) (params : dict)
| GetIdCall (resource : string) (entity_id : pyval).

(** Run a method against a client, recording the calls made. An exception
    of the client ends the run. *)
Fixpoint run {W A : Type} (c : api_client W) (p : prog A) (w : W) (log : list call)
  : result A * W * list call :=
  match p with
  | Ret a => (inr a, w, log)
  | Raise e => (inl e, w, log)
  | ApiSearch r ps k =>
      match _search W c r ps w with
      | (inr x, w') => run c (k x) w' (log ++ [SearchCall r ps])%list
      | (inl e, w') => (inl e, w', (log ++ [SearchCall r ps])%list)
      end
  | ApiGetId r i k =>
      match _get_id W c r i w with
      | (inr x, w') => run c (k x) w' (log ++ [GetIdCall r i])%list
      | (inl e, w') => (inl e, w', (log ++ [GetIdCall r i])%list)
      end
  end.

End Requests.

(** What a method does first: the exception it raises or the search it
    asks for. *)
Definition outcome {Paged Json A : Type} (p : @prog Paged Json A) : option (exn + string * dict) :=
  match p with
  | Raise _ e => Some (inl e)
  | ApiSearch _ r ps _ => Some (inr (r, ps))
  | _ => None
  end.

Arguments prog : clear implicits.
Arguments Ret {Paged Json A} a.
Arguments Raise {Paged Json A} e.
Arguments ApiSearch {Paged Json A} resource params k.
Arguments ApiGetId {Paged Json A} resource entity_id k.
Arguments api_client : clear implicits.
Arguments _search {Paged Json W} a.
Arguments _get_id {Paged Json W} a.

Notation "'do' x '<-' m ';' k" := (pbind m (fun x => k))
  (at level 10, x pattern, m at level 100, k at level 200).

(** ** The rename table *)

(** [attr_map] is a dict from the library's parameter names to the API's:
    its items in iteration order. An entry renames when its two names
    differ. *)
Definition renames (kv : string * string) : bool := negb (String.eqb kv.1 kv.2).

Definition renamed_keys (table : list (string * string)) : list string :=
  (List.filter renames table).*1.

Definition wire_keys (table : list (string * string)) : list string :=
  (List.filter renames table).*2.

(** A dict has each key once. *)
Definition unique_keys (table : list (string * string)) : Prop := NoDup table.*1.

(** No name is both renamed and the target of a rename. *)
Definition no_chain (table : list (string * string)) : Prop :=
  Forall (fun k => k ∉ wire_keys table) (renamed_keys table).

(** The value the renames put at [w]: that of the last entry of the table
    that renames a key of [P] to [w]. *)
Fixpoint last_renamed (table : list (string * string)) (P : dict) (w : string)
  : option pyval :=
  match table with
  | [] => None
  | (k, v) :: rest =>
      match last_renamed rest P w with
      | Some x => Some x
      | None => if renames (k, v) && String.eqb v w then P !! k else None
      end
  end.

(** A sample table: the entry that the comment in [_search_params] names
    ([venue_id] to [venueId]), two more renames of that shape and two
    entries that keep their name. The table of [ticketpy.model] is not among
    the sources; the properties below are stated for every table. *)
Definition sample_attr_map : list (string * string) :=
  [("start_date_time", "startDateTime"); ("venue_id", "venueId");
   ("include_test", "includeTest"); ("keyword", "keyword"); ("id", "id")].

(** A table in which two names go to the same wire name. *)
Definition colliding_attr_map : list (string * string) :=
  [("venue_id", "id"); ("event_id", "id")].

Section Query.

Context {Paged Json Model : Type}.

(** [ticketpy.model.attr_map], in iteration order. *)
Variable attr_map : list (string * string).

(** [from_json] of each class of [ticketpy.model]. *)
Variable from_json : model_class -> Json -> result Model.

Definition rename_step (kwargs : dict) (kv : string * string) : result dict :=
  let '(k, v) := kv in
  if contains kwargs k && negb (String.eqb k v) then
    let* x := getitem kwargs k in
    delitem (<[v := x]> kwargs) k
  else inr kwargs.

(** The loop over [attr_map.items()]. *)
Fixpoint rename_loop (items : list (string * string)) (kwargs : dict) : result dict :=
  match items with
  | [] => inr kwargs
  | kv :: rest =>
      let* kwargs' := rename_step kwargs kv in
      rename_loop rest kwargs'
  end.

Definition _search_params (kwargs : dict) : result dict :=
  let* kwargs' := rename_loop attr_map kwargs in
  inr (filter (fun kv => kv.2 ≠ PyNone) kwargs').

(** [BaseQuery.__get(self, **kwargs)] *)
Definition __get (self : query_type) (pos : list pyval) (kw : dict) : prog Paged Json Paged :=
  do (_, kwargs) <- lift (bind_args [] pos kw);
  ApiSearch (resource self) kwargs Ret.

Definition _get (self : query_type) (pos : list pyval) (kw : dict) : prog Paged Json Paged :=
  do (l, kwargs) <- lift (bind_args _get_sig pos kw);
  do params <- lift (_search_params (search_args l kwargs));
  __get self [] params.

Definition by_id (self : query_type) (entity_id : pyval) : prog Paged Json Model :=
  ApiGetId (resource self) entity_id (fun resp => lift (from_json (model self) resp)).

Definition AttractionQuery_find (self : query_type) (pos : list pyval) (kw : dict)
  : prog Paged Json Paged :=
  do (l, kwargs) <- lift (bind_args AttractionQuery_find_sig pos kw);
  do kws <- lift (keywords [("source", l !!! "source")] kwargs);
  _get self [l !!! "keyword"; l !!! "attraction_id"; l !!! "sort"; l !!! "include_test";
             l !!! "page"; l !!! "size"; l !!! "locale"] kws.

Definition ClassificationQuery_find (self : query_type) (pos : list pyval) (kw : dict)
  : prog Paged Json Paged :=
  do (l, kwargs) <- lift (bind_args ClassificationQuery_find_sig pos kw);
  do kws <- lift (keywords [("source", l !!! "source")] kwargs);
  _get self [l !!! "keyword"; l !!! "classification_id"; l !!! "sort"; l !!! "include_test";
             l !!! "page"; l !!! "size"; l !!! "locale"] kws.

Definition EventQuery_find (self : query_type) (pos : list pyval) (kw : dict)
  : prog Paged Json Paged :=
  do (l, kwargs) <- lift (bind_args EventQuery_find_sig pos kw);
  do kws <- lift (keywords
    [("latlong", l !!! "latlong"); ("radius", l !!! "radius"); ("unit", l !!! "unit");
     ("start_date_time", l !!! "start_date_time");
     ("end_date_time", l !!! "end_date_time");
     ("onsale_start_date_time", l !!! "onsale_start_date_time");
     ("onsale_end_date_time", l !!! "onsale_end_date_time");
     ("country_code", l !!! "country_code"); ("state_code", l !!! "state_code");
     ("venue_id", l !!! "venue_id"); ("attraction_id", l !!! "attraction_id");
     ("segment_id", l !!! "segment_id"); ("segment_name", l !!! "segment_name");
     ("classification_name", l !!! "classification_name");
     ("classification_id", l !!! "classification_id");
     ("market_id", l !!! "market_id"); ("promoter_id", l !!! "promoter_id");
     ("dma_id", l !!! "dma_id"); ("include_tba", l !!! "include_tba");
     ("include_tbd", l !!! "include_tbd"); ("source", l !!! "source");
     ("client_visibility", l !!! "client_visibility")] kwargs);
  _get self [l !!! "keyword"; l !!! "event_id"; l !!! "sort"; l !!! "include_test";
             l !!! "page"; l !!! "size"; l !!! "locale"] kws.

Definition VenueQuery_find (self : query_type) (pos : list pyval) (kw : dict)
  : prog Paged Json Paged :=
  do (l, kwargs) <- lift (bind_args VenueQuery_find_sig pos kw);
  do kws <- lift (keywords
    [("state_code", l !!! "state_code"); ("country_code", l !!! "country_code");
     ("source", l !!! "source")] kwargs);
  _get self [l !!! "keyword"; l !!! "venue_id"; l !!! "sort"; l !!! "include_test";
             l !!! "page"; l !!! "size"; l !!! "locale"] kws.

(** [self.find(...)]: looking [find] up on a class without it is an
    [AttributeError]. *)
Definition find (self : query_type) (pos : list pyval) (kw : dict) : prog Paged Json Paged :=
  match self with
  | AttractionQuery => AttractionQuery_find self pos kw
  | ClassificationQuery => ClassificationQuery_find self pos kw
  | EventQuery => EventQuery_find self pos kw
  | VenueQuery => VenueQuery_find self pos kw
  | SegmentQuery | GenreQuery | SubGenreQuery => Raise AttributeError
  end.

Definition EventQuery_by_location (self : query_type) (pos : list pyval) (kw : dict)
  : prog Paged Json Paged :=
  do (l, kwargs) <- lift (bind_args by_location_sig pos kw);
  do lat <- lift (py_str (l !!! "latitude"));
  do long <- lift (py_str (l !!! "longitude"));
  let latlong := (lat ++ "," ++ long)%string in
  do radius <- lift (py_str (l !!! "radius"));
  do kws <- lift (keywords
    [("latlong", PyStr latlong); ("radius", PyStr radius);
     ("unit", l !!! "unit"); ("sort", l !!! "sort")] kwargs);
  find self [] kws.

Definition VenueQuery_by_name (self : query_type) (pos : list pyval) (kw : dict)
  : prog Paged Json Paged :=
  do (l, kwargs) <- lift (bind_args by_name_sig pos kw);
  do kws <- lift (keywords
    [("keyword", l !!! "venue_name"); ("state_code", l !!! "state_code")] kwargs);
  find self [] kws.

(** [self.by_location(...)] and [self.by_name(...)]: only [EventQuery]
    and [VenueQuery] declare them. *)
Definition by_location (self : query_type) (pos : list pyval) (kw : dict)
  : prog Paged Json Paged :=
  match self with
  | EventQuery => EventQuery_by_location self pos kw
  | _ => Raise AttributeError
  end.

Definition by_name (self : query_type) (pos : list pyval) (kw : dict)
  : prog Paged Json Paged :=
  match self with
  | VenueQuery => VenueQuery_by_name self pos kw
  | _ => Raise AttributeError
  end.

End Query.

(** ** Statements under test

    Readings of the specification that are compared with the code below. *)


(** A key with a falsy value that no entry renames is in the result with
    its value. *)
Definition falsy_preserved (table : list (string * string)) (P : dict) (K : string) (v : pyval)
  : Prop :=
  P !! K = Some v -> v ≠ PyNone -> truthy v = false -> K ∉ renamed_keys table ->
  exists R, _search_params table P = inr R /\ R !! K = Some v.

(** A renamed key leaves, and its wire key holds its value. *)
Definition rename_moves (table : list (string * string)) (P : dict) (K W : string) (v : pyval)
  : Prop :=
  (K, W) ∈ table -> K ≠ W -> P !! K = Some v ->
  (forall K', K' ≠ K -> (K', W) ∈ table -> K' ≠ W -> P !! K' = None) ->
  exists R, _search_params table P = inr R /\ R !! K = None /\ R !! W = Some v.

(** Of two keys renamed to the same wire key, the later one's value is in
    the result. *)
Definition last_write_wins (before after : list (string * string)) (P : dict)
    (K1 K2 W : string) (v1 v2 : pyval) : Prop :=
  let table := (before ++ (K2, W) :: after)%list in
  (K1, W) ∈ before -> K1 ≠ W -> K2 ≠ W -> K1 ≠ K2 ->
  P !! K1 = Some v1 -> P !! K2 = Some v2 ->
  (forall K', (K', W) ∈ after -> K' ≠ W -> P !! K' = None) ->
  exists R, _search_params table P = inr R /\ R !! W = Some v2.

(** [find] is there to be called. *)
Definition exposes_find {Paged Json : Type} (table : list (string * string))
    (self : query_type) : Prop :=
  forall pos kw, @find Paged Json table self pos kw ≠ Raise AttributeError.

(** A key without an entry in the table is in the result with its value. *)
Definition unknown_passes (table : list (string * string)) (P : dict) (K : string) (v : pyval)
  : Prop :=
  P !! K = Some v -> v ≠ PyNone -> K ∉ table.*1 ->
  exists R, _search_params table P = inr R /\ R !! K = Some v.

(** ** Outcomes

    What the methods that search are seen to do. *)

(** The table neither renames [x] nor renames anything to [x]. *)
Definition untouched (table : list (string * string)) (x : string) : Prop :=
  (x ∉ renamed_keys table) /\ (x ∉ wire_keys table).

(** A method that raises one of [errors], or asks the client for one search
    on [r] with a mapping free of [None] and returns the client's answer. *)
Definition raises_or_searches {Paged Json : Type} (errors : list exn) (r : string)
    (p : prog Paged Json Paged) : Prop :=
  (exists e, e ∈ errors /\ p = Raise e) \/
  (exists params, (forall k, params !! k ≠ Some PyNone) /\ p = ApiSearch r params Ret).

(** A run that ended in one of [errors] before any call, or made the one
    call [_search(r, **params)] and ended as the client did. *)
Definition raised_or_searched {Paged Json W : Type} (c : api_client Paged Json W) (w : W)
    (errors : list exn) (r : string) (out : result Paged * W * list call) : Prop :=
  (exists e, e ∈ errors /\ out = (inl e, w, [])) \/
  (exists params, (forall k, params !! k ≠ Some PyNone) /\
     (out = (_search c r params w, [SearchCall r params]))).

(** ** Proof steps

    [names_in] and [entries_in] go through the members of an explicit list
    of names or of table entries. *)

Ltac names_in H tac :=
  repeat (apply elem_of_cons in H as [->|H]; [tac|]);
  try (apply elem_of_nil in H; destruct H).

Ltac entries_in H tac :=
  repeat (apply elem_of_cons in H as [H|H];
          [first [discriminate H | inversion H; subst; tac]|]);
  try (apply elem_of_nil in H; destruct H).

(** Decide a closed statement about a result by evaluating it. *)
Ltac refute H := revert H; compute_done.

(** * Properties *)

(** ** Dictionaries *)

Lemma contains_true (d : dict) (k : string) (v : pyval) :
  d !! k = Some v -> contains d k = true.
Proof. intros H. unfold contains. apply bool_decide_eq_true. eauto. Qed.

Lemma contains_false (d : dict) (k : string) :
  d !! k = None -> contains d k = false.
Proof.
  intros H. unfold contains. apply bool_decide_eq_false.
  rewrite H. apply is_Some_None.
Qed.

Lemma contains_lookup (d d' : dict) (k : string) :
  d !! k = d' !! k -> contains d k = contains d' k.
Proof. unfold contains. by intros ->. Qed.

Lemma update_cons (d : dict) (k : string) (v : pyval) (items : list (string * pyval)) :
  update d ((k, v) :: items) = update (<[k := v]> d) items.
Proof. reflexivity. Qed.

Lemma update_lookup_other (items : list (string * pyval)) (d : dict) (k : string) :
  k ∉ items.*1 -> update d items !! k = d !! k.
Proof.
  revert d. induction items as [|[n v] items IH]; intros d Hk; [done|].
  rewrite update_cons, IH.
  - apply lookup_insert_ne. intros ->. apply Hk. simpl. left.
  - intros Hin. apply Hk. simpl. by right.
Qed.

Lemma update_agree (items : list (string * pyval)) (d d' : dict) (k : string) :
  d !! k = d' !! k -> update d items !! k = update d' items !! k.
Proof.
  revert d d'. induction items as [|[n v] items IH]; intros d d' H; [done|].
  rewrite !update_cons. apply IH.
  destruct (decide (n = k)) as [->|Hne].
  - by rewrite !lookup_insert_eq.
  - by rewrite !lookup_insert_ne.
Qed.

Lemma update_covered (items : list (string * pyval)) (d d' : dict) (k : string) :
  k ∈ items.*1 -> update d items !! k = update d' items !! k.
Proof.
  revert d d'. induction items as [|[n v] items IH]; intros d d' Hk.
  - by apply elem_of_nil in Hk.
  - rewrite !update_cons. simpl in Hk. apply elem_of_cons in Hk as [->|Hk].
    + apply update_agree. by rewrite !lookup_insert_eq.
    + by apply IH.
Qed.

Lemma filter_not_none_lookup (m : dict) (k : string) :
  filter (fun kv : string * pyval => kv.2 ≠ PyNone) m !! k = not_none (m !! k).
Proof.
  destruct (m !! k) as [v|] eqn:Hk.
  - destruct (decide (v = PyNone)) as [->|Hv].
    + simpl. apply map_lookup_filter_None. right. intros x Hx. simpl.
      rewrite Hk in Hx. injection Hx as <-. tauto.
    + transitivity (Some v); [|by destruct v].
      apply map_lookup_filter_Some. by split.
  - simpl. apply map_lookup_filter_None. by left.
Qed.

Lemma filter_params_none (ps : list string) (kw : dict) (n : string) :
  n ∈ ps -> filter (fun kv : string * pyval => kv.1 ∉ ps) kw !! n = None.
Proof.
  intros Hn. apply map_lookup_filter_None. right. intros v _. simpl. tauto.
Qed.

Lemma filter_params_other (ps : list string) (kw : dict) (n : string) :
  n ∉ ps -> filter (fun kv : string * pyval => kv.1 ∉ ps) kw !! n = kw !! n.
Proof.
  intros Hn. destruct (kw !! n) as [v|] eqn:Hk.
  - apply map_lookup_filter_Some. by split.
  - apply map_lookup_filter_None. by left.
Qed.

Lemma filter_no_params (kw : dict) :
  filter (fun kv : string * pyval => kv.1 ∉ @nil string) kw = kw.
Proof.
  apply map_eq. intros n. apply filter_params_other. apply not_elem_of_nil.
Qed.

(** ** The rename table *)

Lemma renames_true (k v : string) : renames (k, v) = true <-> k ≠ v.
Proof.
  unfold renames. simpl. rewrite negb_true_iff. split.
  - intros H ->. by rewrite String.eqb_refl in H.
  - intros H. by apply String.eqb_neq.
Qed.

Lemma renames_false (k v : string) : renames (k, v) = false <-> k = v.
Proof.
  unfold renames. simpl. rewrite negb_false_iff. apply String.eqb_eq.
Qed.

Lemma elem_of_renamed_keys (table : list (string * string)) (k : string) :
  k ∈ renamed_keys table <-> exists w, (k, w) ∈ table /\ k ≠ w.
Proof.
  unfold renamed_keys. rewrite list_elem_of_fmap. split.
  - intros [[k' w] [-> Hin]]. apply list_elem_of_In, filter_In in Hin as [Hin Hr].
    exists w. split; [by apply list_elem_of_In | by apply renames_true].
  - intros (w & Hin & Hne). exists (k, w). split; [done|].
    apply list_elem_of_In, filter_In. split; [by apply list_elem_of_In | by apply renames_true].
Qed.

Lemma elem_of_wire_keys (table : list (string * string)) (w : string) :
  w ∈ wire_keys table <-> exists k, (k, w) ∈ table /\ k ≠ w.
Proof.
  unfold wire_keys. rewrite list_elem_of_fmap. split.
  - intros [[k w'] [-> Hin]]. apply list_elem_of_In, filter_In in Hin as [Hin Hr].
    exists k. split; [by apply list_elem_of_In | by apply renames_true].
  - intros (k & Hin & Hne). exists (k, w). split; [done|].
    apply list_elem_of_In, filter_In. split; [by apply list_elem_of_In | by apply renames_true].
Qed.

Lemma no_chain_spec (table : list (string * string)) :
  no_chain table <->
  forall k w k' w', (k, w) ∈ table -> k ≠ w -> (k', w') ∈ table -> k' ≠ w' -> k ≠ w'.
Proof.
  unfold no_chain. rewrite Forall_forall. split.
  - intros H k w k' w' Hkw Hne Hkw' Hne' ->.
    apply (H w').
    + apply elem_of_renamed_keys. eauto.
    + apply elem_of_wire_keys. eauto.
  - intros H k Hk Hw.
    apply elem_of_renamed_keys in Hk as (w & Hkw & Hne).
    apply elem_of_wire_keys in Hw as (k' & Hkw' & Hne').
    by apply (H k w k' k).
Qed.

Lemma no_chain_tail (kv : string * string) (table : list (string * string)) :
  no_chain (kv :: table) -> no_chain table.
Proof.
  rewrite !no_chain_spec. intros H k w k' w' Hkw Hne Hkw' Hne'.
  apply (H k w k' w'); try done; by right.
Qed.

Lemma unique_keys_tail (kv : string * string) (table : list (string * string)) :
  unique_keys (kv :: table) -> unique_keys table.
Proof. unfold unique_keys. simpl. intros H. by apply NoDup_cons in H as [_ H]. Qed.

Lemma unique_keys_head (k v w : string) (table : list (string * string)) :
  unique_keys ((k, v) :: table) -> (k, w) ∉ table.
Proof.
  unfold unique_keys. simpl. intros H Hin. apply NoDup_cons in H as [H _].
  apply H. apply list_elem_of_fmap. by exists (k, w).
Qed.

Lemma last_renamed_no_wire (table : list (string * string)) (P : dict) (w : string) :
  w ∉ wire_keys table -> last_renamed table P w = None.
Proof.
  induction table as [|[k v] table IH]; intros Hw; [done|].
  simpl. rewrite IH.
  - destruct (renames (k, v)) eqn:Hr; [|done]. simpl.
    destruct (String.eqb v w) eqn:Hv; [|done].
    apply String.eqb_eq in Hv as ->. exfalso. apply Hw.
    apply elem_of_wire_keys. exists k. split; [left | by apply renames_true].
  - intros Hin. apply Hw. apply elem_of_wire_keys.
    apply elem_of_wire_keys in Hin as (k' & Hin & Hne).
    exists k'. split; [by right | done].
Qed.

Lemma last_renamed_agree (table : list (string * string)) (P P' : dict) (w : string) :
  (forall k, k ∈ renamed_keys table -> P' !! k = P !! k) ->
  last_renamed table P' w = last_renamed table P w.
Proof.
  induction table as [|[k v] table IH]; intros H; [done|].
  simpl. rewrite IH.
  - destruct (last_renamed table P w); [done|].
    destruct (renames (k, v)) eqn:Hr; [|done]. simpl.
    destruct (String.eqb v w); [|done].
    apply H. apply elem_of_renamed_keys. exists v.
    split; [left | by apply renames_true].
  - intros k' Hk'. apply H. apply elem_of_renamed_keys.
    apply elem_of_renamed_keys in Hk' as (w' & Hin & Hne).
    exists w'. split; [by right | done].
Qed.

Lemma last_renamed_absent (table : list (string * string)) (P : dict) (w : string) :
  (forall k, (k, w) ∈ table -> k ≠ w -> P !! k = None) ->
  last_renamed table P w = None.
Proof.
  induction table as [|[k v] table IH]; intros H; [done|].
  simpl. rewrite IH.
  - destruct (renames (k, v)) eqn:Hr; [|done]. simpl.
    destruct (String.eqb v w) eqn:Hv; [|done].
    apply String.eqb_eq in Hv as ->. apply H; [left | by apply renames_true].
  - intros k' Hin Hne. apply H; [by right | done].
Qed.

Lemma last_renamed_split (before after : list (string * string)) (P : dict)
    (K W : string) (v : pyval) :
  K ≠ W -> P !! K = Some v ->
  (forall k, (k, W) ∈ after -> k ≠ W -> P !! k = None) ->
  last_renamed (before ++ (K, W) :: after) P W = Some v.
Proof.
  intros Hne HK Hafter.
  induction before as [|[k w] before IH]; simpl.
  - rewrite (last_renamed_absent after P W Hafter).
    apply renames_true in Hne as ->. simpl. by rewrite String.eqb_refl.
  - by rewrite IH.
Qed.

(** ** The rename loop *)

(** One round of the loop never raises: [kwargs[k]] is read and deleted
    only after [k in kwargs] held, and [k != v] keeps it there. *)
Lemma rename_step_eq (kwargs : dict) (k v : string) :
  rename_step kwargs (k, v) =
  inr (match kwargs !! k with
       | Some x => if String.eqb k v then kwargs else delete k (<[v := x]> kwargs)
       | None => kwargs
       end).
Proof.
  unfold rename_step. destruct (kwargs !! k) as [x|] eqn:Hk.
  - rewrite (contains_true _ _ _ Hk). simpl.
    destruct (String.eqb k v) eqn:Hkv; [done|]. simpl.
    apply String.eqb_neq in Hkv.
    unfold getitem. rewrite Hk. simpl. unfold delitem.
    rewrite (contains_true _ k x); [done|].
    rewrite lookup_insert_ne; [done|]. congruence.
  - by rewrite (contains_false _ _ Hk).
Qed.

Lemma rename_loop_cons (k v : string) (items : list (string * string)) (kwargs : dict) :
  rename_loop ((k, v) :: items) kwargs =
  rename_loop items
    (match kwargs !! k with
     | Some x => if String.eqb k v then kwargs else delete k (<[v := x]> kwargs)
     | None => kwargs
     end).
Proof. cbn [rename_loop]. by rewrite rename_step_eq. Qed.

Lemma rename_loop_total (items : list (string * string)) (kwargs : dict) :
  exists R, rename_loop items kwargs = inr R.
Proof.
  revert kwargs. induction items as [|[k v] items IH]; intros kwargs.
  - by exists kwargs.
  - rewrite rename_loop_cons. apply IH.
Qed.

(** A key that no entry renames from or to is left alone. *)
Lemma rename_loop_frame (items : list (string * string)) (kwargs R : dict) (x : string) :
  (forall k w, (k, w) ∈ items -> k ≠ w -> k ≠ x /\ w ≠ x) ->
  rename_loop items kwargs = inr R -> R !! x = kwargs !! x.
Proof.
  revert kwargs. induction items as [|[k v] items IH]; intros kwargs H HR.
  - simpl in HR. congruence.
  - rewrite rename_loop_cons in HR. apply IH in HR.
    + rewrite HR. destruct (kwargs !! k) as [y|]; [|done].
      destruct (String.eqb k v) eqn:Hkv; [done|].
      apply String.eqb_neq in Hkv. destruct (H k v) as [Hk Hv]; [left | done |].
      rewrite lookup_delete_ne by done. by rewrite lookup_insert_ne.
    + intros k' w' Hin. apply H. by right.
Qed.

(** A key that is absent and that no entry renames to stays absent. *)
Lemma rename_loop_fresh (items : list (string * string)) (kwargs R : dict) (x : string) :
  (forall k, (k, x) ∈ items -> k = x) -> kwargs !! x = None ->
  rename_loop items kwargs = inr R -> R !! x = None.
Proof.
  revert kwargs. induction items as [|[k v] items IH]; intros kwargs H Hx HR.
  - simpl in HR. congruence.
  - rewrite rename_loop_cons in HR. apply IH in HR; [done | |].
    + intros k' Hin. apply H. by right.
    + destruct (kwargs !! k) as [y|]; [|done].
      destruct (String.eqb k v) eqn:Hkv; [done|].
      apply String.eqb_neq in Hkv.
      destruct (decide (k = x)) as [->|Hk]; [apply lookup_delete_eq|].
      rewrite lookup_delete_ne by done. rewrite lookup_insert_ne; [done|].
      intros ->. apply Hkv. apply H. left.
Qed.

(** Without a renamed key in it, the dict comes out of the loop as it went
    in. *)
Lemma rename_loop_id (items : list (string * string)) (kwargs : dict) :
  (forall k w, (k, w) ∈ items -> k ≠ w -> kwargs !! k = None) ->
  rename_loop items kwargs = inr kwargs.
Proof.
  induction items as [|[k v] items IH]; intros H; [done|].
  rewrite rename_loop_cons.
  destruct (kwargs !! k) as [y|] eqn:Hk.
  - destruct (String.eqb k v) eqn:Hkv.
    + apply IH. intros k' w' Hin. apply H. by right.
    + apply String.eqb_neq in Hkv. rewrite (H k v) in Hk; [done | left | done].
  - apply IH. intros k' w' Hin. apply H. by right.
Qed.

(** What the loop leaves at each key, for a table that has each key once
    and no chain of renames: nothing at a renamed key, the value of the
    last rename applied at a wire key, and the value it had anywhere
    else. *)
Lemma rename_loop_lookup (items : list (string * string)) (kwargs R : dict) (x : string) :
  unique_keys items -> no_chain items ->
  rename_loop items kwargs = inr R ->
  R !! x = if decide (x ∈ renamed_keys items) then None
           else match last_renamed items kwargs x with
                | Some v => Some v
                | None => kwargs !! x
                end.
Proof.
  revert kwargs. induction items as [|[k v] items IH]; intros kwargs Hu Hc HR.
  - simpl in HR. by injection HR as <-.
  - pose proof (unique_keys_tail _ _ Hu) as Hu'.
    pose proof (no_chain_tail _ _ Hc) as Hc'.
    pose proof (proj1 (no_chain_spec _) Hc) as Hchain.
    assert (Hk_fresh : k ∉ renamed_keys items).
    { intros Hin. apply elem_of_renamed_keys in Hin as (w & Hin & _).
      by apply (unique_keys_head k v w items Hu). }
    rewrite rename_loop_cons in HR. specialize (IH _ Hu' Hc' HR). rewrite IH. clear IH HR.
    destruct (String.eqb k v) eqn:Hkv.
    { (* the entry keeps its name *)
      apply String.eqb_eq in Hkv as <-.
      assert (Hsame : (match kwargs !! k with Some _ => kwargs | None => kwargs end) = kwargs)
        by (by destruct (kwargs !! k)).
      rewrite Hsame. simpl last_renamed.
      assert (Hr : renames (k, k) = false) by by apply renames_false.
      rewrite Hr. simpl.
      assert (Hiff : x ∈ renamed_keys ((k, k) :: items) <-> x ∈ renamed_keys items).
      { unfold renamed_keys. simpl. by rewrite Hr. }
      destruct (decide (x ∈ renamed_keys items)) as [Hin|Hin].
      - by rewrite decide_True by by apply Hiff.
      - rewrite decide_False by (by rewrite Hiff). by destruct (last_renamed items kwargs x). }
    apply String.eqb_neq in Hkv.
    assert (Hr : renames (k, v) = true) by by apply renames_true.
    assert (Hkeys : renamed_keys ((k, v) :: items) = k :: renamed_keys items).
    { unfold renamed_keys. simpl. by rewrite Hr. }
    assert (Hk_wire : k ∉ wire_keys items).
    { intros Hin. apply elem_of_wire_keys in Hin as (k' & Hin & Hne).
      apply (Hchain k v k' k); [left | done | by right | done | done]. }
    assert (Hv_keys : v ∉ renamed_keys items).
    { intros Hin. apply elem_of_renamed_keys in Hin as (w & Hin & Hne).
      apply (Hchain v w k v); [by right | done | left | done | done]. }
    rewrite Hkeys. simpl last_renamed. rewrite Hr. simpl.
    destruct (kwargs !! k) as [y|] eqn:Hk.
    + (* the entry moves [y] from [k] to [v] *)
      rewrite (last_renamed_agree items kwargs (delete k (<[v := y]> kwargs)) x).
      2:{ intros k' Hk'. rewrite lookup_delete_ne by congruence.
          rewrite lookup_insert_ne; [done | congruence]. }
      destruct (decide (x = k)) as [->|Hxk].
      * rewrite decide_False by done. rewrite decide_True by left.
        rewrite (last_renamed_no_wire items kwargs k Hk_wire). apply lookup_delete_eq.
      * rewrite lookup_delete_ne by done.
        destruct (decide (x ∈ renamed_keys items)) as [Hin|Hin].
        { by rewrite decide_True by by right. }
        rewrite decide_False by (rewrite not_elem_of_cons; done).
        destruct (last_renamed items kwargs x); [done|].
        destruct (String.eqb v x) eqn:Hvx.
        -- apply String.eqb_eq in Hvx as ->. by rewrite lookup_insert_eq.
        -- apply String.eqb_neq in Hvx. by rewrite lookup_insert_ne.
    + (* [k] is not in the dict *)
      destruct (decide (x = k)) as [->|Hxk].
      * rewrite decide_False by done. rewrite decide_True by left.
        by rewrite (last_renamed_no_wire items kwargs k Hk_wire).
      * destruct (decide (x ∈ renamed_keys items)) as [Hin|Hin].
        { by rewrite decide_True by by right. }
        rewrite decide_False by (rewrite not_elem_of_cons; done).
        destruct (last_renamed items kwargs x); [done|].
        by destruct (String.eqb v x).
Qed.

Lemma last_renamed_inv (table : list (string * string)) (P : dict) (w : string) (x : pyval) :
  last_renamed table P w = Some x ->
  exists k, (k, w) ∈ table /\ k ≠ w /\ P !! k = Some x.
Proof.
  induction table as [|[k v] table IH]; intros H; [done|].
  simpl in H. destruct (last_renamed table P w) as [y|].
  - destruct IH as (k' & Hin & Hne & Hk'); [done|].
    exists k'. split; [by right | done].
  - destruct (renames (k, v)) eqn:Hr; [|done]. simpl in H.
    destruct (String.eqb v w) eqn:Hv; [|done].
    apply String.eqb_eq in Hv as ->. apply renames_true in Hr.
    exists k. split; [left | done].
Qed.

Lemma last_renamed_only (table : list (string * string)) (P : dict) (K W : string) (v : pyval) :
  (K, W) ∈ table -> K ≠ W -> P !! K = Some v ->
  (forall K', K' ≠ K -> (K', W) ∈ table -> K' ≠ W -> P !! K' = None) ->
  last_renamed table P W = Some v.
Proof.
  intros Hin Hne HK. induction table as [|[k w] table IH]; intros Hothers.
  - by apply elem_of_nil in Hin.
  - simpl. destruct (last_renamed table P W) as [y|] eqn:Hy.
    + apply last_renamed_inv in Hy as (k' & Hk' & Hkw & Hy).
      destruct (decide (k' = K)) as [->|Hne']; [congruence|].
      rewrite (Hothers k') in Hy; [done | done | by right | done].
    + apply elem_of_cons in Hin as [Heq|Hin].
      * injection Heq as <- <-. apply renames_true in Hne as ->. simpl.
        by rewrite String.eqb_refl.
      * discriminate IH; [done|].
        intros K' HK' Hin'. apply Hothers; [done | by right].
Qed.

(** ** [_search_params] *)

Lemma search_params_eq (table : list (string * string)) (P : dict) :
  exists R0, rename_loop table P = inr R0 /\
             _search_params table P = inr (filter (fun kv => kv.2 ≠ PyNone) R0).
Proof.
  destruct (rename_loop_total table P) as [R0 HR0]. exists R0. split; [done|].
  unfold _search_params. by rewrite HR0.
Qed.

Lemma search_params_no_none (table : list (string * string)) (P R : dict) (k : string) :
  _search_params table P = inr R -> R !! k ≠ Some PyNone.
Proof.
  destruct (search_params_eq table P) as (R0 & _ & ->). intros [= <-].
  rewrite filter_not_none_lookup. by destruct (R0 !! k) as [[]|].
Qed.

Lemma search_params_lookup (table : list (string * string)) (P R : dict) (x : string) :
  unique_keys table -> no_chain table ->
  _search_params table P = inr R ->
  R !! x = not_none (if decide (x ∈ renamed_keys table) then None
                     else match last_renamed table P x with
                          | Some v => Some v
                          | None => P !! x
                          end).
Proof.
  intros Hu Hc. destruct (search_params_eq table P) as (R0 & HR0 & ->). intros [= <-].
  rewrite filter_not_none_lookup. f_equal. by apply rename_loop_lookup.
Qed.

Lemma search_params_keeps (table : list (string * string)) (P R : dict) (K : string) (v : pyval) :
  unique_keys table -> no_chain table ->
  _search_params table P = inr R ->
  P !! K = Some v -> v ≠ PyNone -> K ∉ renamed_keys table ->
  (forall K', (K', K) ∈ table -> K' ≠ K -> P !! K' = None) ->
  R !! K = Some v.
Proof.
  intros Hu Hc HR HK Hv Hkeys Hothers.
  rewrite (search_params_lookup table P R K Hu Hc HR).
  rewrite decide_False by done.
  rewrite (last_renamed_absent table P K Hothers), HK. by destruct v.
Qed.

(** C2 (amended): the result of [_search_params] never holds a key whose
    value is [None]; and, for a table that has each key once and no chain
    of renames, a key of [P] whose value is not [None] (so also [0] or the
    empty string) and that is not renamed away stays in the result with
    its value, provided no key of [P] is renamed onto it. *)
Theorem search_params_no_none_keeps_falsy (table : list (string * string)) (P : dict) :
  exists R, _search_params table P = inr R /\
    (forall k, R !! k ≠ Some PyNone) /\
    (unique_keys table -> no_chain table ->
     forall K v, P !! K = Some v -> v ≠ PyNone -> K ∉ renamed_keys table ->
       (forall K', (K', K) ∈ table -> K' ≠ K -> P !! K' = None) ->
       R !! K = Some v).
Proof.
  destruct (search_params_eq table P) as (R0 & _ & HR).
  eexists. split; [exact HR|]. split.
  - intros k. by apply (search_params_no_none table P).
  - intros Hu Hc K v. by apply search_params_keeps.
Qed.

(** C3 (amended): for a table that has each key once and no chain of
    renames, an entry [K -> W] with [K <> W] and a mapping [P] that holds
    [K], with no other key of [P] renamed to [W]: the result has no [K],
    and has [W] with the value [P] had at [K] when that value is not
    [None]; when it is [None] the result has no [W] either. *)
Theorem renamed_key_moves (table : list (string * string)) (P : dict) (K W : string) (v : pyval) :
  unique_keys table -> no_chain table ->
  (K, W) ∈ table -> K ≠ W -> P !! K = Some v ->
  (forall K', K' ≠ K -> (K', W) ∈ table -> K' ≠ W -> P !! K' = None) ->
  exists R, _search_params table P = inr R /\
    R !! K = None /\
    R !! W = if decide (v = PyNone) then None else Some v.
Proof.
  intros Hu Hc Hin Hne HK Hothers.
  destruct (search_params_eq table P) as (R0 & _ & HR).
  eexists. split; [exact HR|].
  rewrite !(search_params_lookup table P _ _ Hu Hc HR). split.
  - rewrite decide_True; [done|]. apply elem_of_renamed_keys. eauto.
  - rewrite decide_False.
    + rewrite (last_renamed_only table P K W v) by done.
      destruct (decide (v = PyNone)) as [->|Hv]; [done | by destruct v].
    + intros HW. apply elem_of_renamed_keys in HW as (w' & HW & Hne').
      by apply (proj1 (no_chain_spec table) Hc W w' K W).
Qed.

(** C4 (amended): for a table that has each key once and no chain of
    renames, in which [K1] and then [K2] are renamed to the same [W], and a
    mapping that holds both and no key renamed to [W] later in the table:
    [_search_params] raises nothing and its result has [W] with the value
    of [K2] when that value is not [None]; when it is [None] the result has
    no [W]. *)
Theorem collision_last_rename_wins (before after : list (string * string)) (P : dict)
    (K1 K2 W : string) (v1 v2 : pyval) :
  unique_keys (before ++ (K2, W) :: after) -> no_chain (before ++ (K2, W) :: after) ->
  (K1, W) ∈ before -> K1 ≠ W -> K2 ≠ W ->
  P !! K1 = Some v1 -> P !! K2 = Some v2 ->
  (forall K', (K', W) ∈ after -> K' ≠ W -> P !! K' = None) ->
  exists R, _search_params (before ++ (K2, W) :: after) P = inr R /\
    R !! W = if decide (v2 = PyNone) then None else Some v2.
Proof.
  intros Hu Hc Hin1 Hne1 Hne2 HK1 HK2 Hafter.
  destruct (search_params_eq (before ++ (K2, W) :: after) P) as (R0 & _ & HR).
  eexists. split; [exact HR|].
  rewrite (search_params_lookup _ P _ _ Hu Hc HR).
  rewrite decide_False.
  - rewrite (last_renamed_split before after P K2 W v2) by done.
    destruct (decide (v2 = PyNone)) as [->|Hv]; [done | by destruct v2].
  - intros HW. apply elem_of_renamed_keys in HW as (w' & HW & Hne').
    apply (proj1 (no_chain_spec _) Hc W w' K2 W); try done.
    apply elem_of_app. right. left.
Qed.

(** C7: a mapping without a key that the table renames and without a
    [None] value comes out of [_search_params] unchanged. *)
Theorem search_params_idempotent (table : list (string * string)) (P : dict) :
  (forall K W, (K, W) ∈ table -> K ≠ W -> P !! K = None) ->
  (forall k, P !! k ≠ Some PyNone) ->
  _search_params table P = inr P.
Proof.
  intros Hkeys Hnone. unfold _search_params.
  rewrite (rename_loop_id table P Hkeys). simpl. f_equal.
  apply map_eq. intros k. rewrite filter_not_none_lookup.
  specialize (Hnone k). by destruct (P !! k) as [[]|].
Qed.

(** C9 (amended): [_search_params] raises nothing; and, for a table that
    has each key once and no chain of renames, a key of [P] that has no
    entry in the table and whose value is not [None] is in the result with
    its value, provided no key of [P] is renamed onto it. *)
Theorem unknown_key_passes_through (table : list (string * string)) (P : dict) :
  exists R, _search_params table P = inr R /\
    (unique_keys table -> no_chain table ->
     forall K v, P !! K = Some v -> v ≠ PyNone -> K ∉ table.*1 ->
       (forall K', (K', K) ∈ table -> K' ≠ K -> P !! K' = None) ->
       R !! K = Some v).
Proof.
  destruct (search_params_eq table P) as (R0 & _ & HR).
  eexists. split; [exact HR|].
  intros Hu Hc K v HK Hv Hentry Hothers.
  apply (search_params_keeps table P _ K v); try done.
  intros Hin. apply elem_of_renamed_keys in Hin as (w & Hin & _).
  apply Hentry. apply list_elem_of_fmap. by exists (K, w).
Qed.

(** ** Binding arguments *)

Lemma existsb_agree {A : Type} (f g : A -> bool) (l : list A) :
  (forall x, x ∈ l -> f x = g x) -> existsb f l = existsb g l.
Proof.
  induction l as [|x l IH]; intros H; [done|].
  simpl. rewrite (H x) by left. f_equal. apply IH. intros y Hy. apply H. by right.
Qed.

Lemma existsb_none {A : Type} (f : A -> bool) (l : list A) :
  (forall x, x ∈ l -> f x = false) -> existsb f l = false.
Proof.
  induction l as [|x l IH]; intros H; [done|].
  simpl. rewrite (H x) by left. apply IH. intros y Hy. apply H. by right.
Qed.

Lemma bind_positional_names (ps : signature) (pos : list pyval)
    (bound : list (string * pyval)) (rest : signature) :
  bind_positional ps pos = Some (bound, rest) ->
  (forall n, n ∈ bound.*1 -> n ∈ param_names ps) /\
  (forall n, n ∈ param_names rest -> n ∈ param_names ps).
Proof.
  revert ps bound rest. induction pos as [|v pos IH]; intros ps bound rest H.
  - simpl in H. injection H as <- <-. split; [|done].
    intros n Hn. by apply elem_of_nil in Hn.
  - simpl in H. destruct ps as [|[n d] ps]; [done|].
    destruct (bind_positional ps pos) as [[b r]|] eqn:Hb; [|done].
    injection H as <- <-. destruct (IH _ _ _ Hb) as [Hbound Hrest]. split.
    + intros m Hm. simpl in Hm. apply elem_of_cons in Hm as [->|Hm]; [left|].
      right. by apply Hbound.
    + intros m Hm. right. by apply Hrest.
Qed.

Lemma bind_keywords_agree (ps : signature) (kw kw' : dict) :
  (forall n, n ∈ param_names ps -> kw !! n = kw' !! n) ->
  bind_keywords ps kw = bind_keywords ps kw'.
Proof.
  induction ps as [|[n d] ps IH]; intros H; [done|].
  simpl. rewrite (H n) by left. rewrite IH; [done|].
  intros m Hm. apply H. by right.
Qed.

(** The locals depend on the keywords that name a parameter only. *)
Lemma bind_locals_agree (ps : signature) (pos : list pyval) (kw kw' : dict) :
  kw !! "self" = kw' !! "self" ->
  (forall n, n ∈ param_names ps -> kw !! n = kw' !! n) ->
  bind_locals ps pos kw = bind_locals ps pos kw'.
Proof.
  intros Hself H. unfold bind_locals.
  rewrite (contains_lookup kw kw' "self" Hself).
  destruct (contains kw' "self"); [done|].
  destruct (bind_positional ps pos) as [[bound rest]|] eqn:Hb; [|done].
  destruct (bind_positional_names _ _ _ _ Hb) as [Hbound Hrest].
  rewrite (existsb_agree (fun nv => contains kw nv.1) (fun nv => contains kw' nv.1)).
  - destruct (existsb _ bound); [done|].
    rewrite (bind_keywords_agree rest kw kw'); [done|].
    intros n Hn. apply H. by apply Hrest.
  - intros [n v] Hn. simpl. apply contains_lookup, H, Hbound.
    apply list_elem_of_fmap. by exists (n, v).
Qed.

Lemma bind_locals_self (ps : signature) (pos : list pyval) (kw l : dict) :
  bind_locals ps pos kw = inr l -> kw !! "self" = None.
Proof.
  unfold bind_locals, contains. case_bool_decide as Hs; [done|]. intros _.
  destruct (kw !! "self") eqn:E; [|done]. exfalso. apply Hs. eauto.
Qed.

Lemma bind_args_inv (ps : signature) (pos : list pyval) (kw l kwargs : dict) :
  bind_args ps pos kw = inr (l, kwargs) ->
  bind_locals ps pos kw = inr l /\
  kwargs = filter (fun kv => kv.1 ∉ param_names ps) kw.
Proof.
  unfold bind_args. destruct (bind_locals ps pos kw) as [e|l0]; [done|].
  simpl. by intros [= <- <-].
Qed.

(** What is collected in [kwargs] names no parameter, and is not [self]. *)
Lemma bind_args_kwargs_param (ps : signature) (pos : list pyval) (kw l kwargs : dict)
    (n : string) :
  bind_args ps pos kw = inr (l, kwargs) -> n ∈ param_names ps -> kwargs !! n = None.
Proof.
  intros H Hn. apply bind_args_inv in H as [_ ->]. by apply filter_params_none.
Qed.

Lemma bind_args_kwargs_self (ps : signature) (pos : list pyval) (kw l kwargs : dict) :
  bind_args ps pos kw = inr (l, kwargs) -> kwargs !! "self" = None.
Proof.
  intros H. apply bind_args_inv in H as [Hl ->].
  apply bind_locals_self in Hl.
  apply map_lookup_filter_None. by left.
Qed.

Lemma keywords_fresh (explicit : list (string * pyval)) (kwargs : dict) :
  (forall n, n ∈ explicit.*1 -> kwargs !! n = None) ->
  keywords explicit kwargs = inr (update kwargs explicit).
Proof.
  intros H. unfold keywords. rewrite existsb_none; [done|].
  intros [n v] Hn. simpl. apply contains_false, H.
  apply list_elem_of_fmap. by exists (n, v).
Qed.

(** [_get] called with its seven parameters by position. *)
Lemma bind_args_get_positional (a1 a2 a3 a4 a5 a6 a7 : pyval) (kws : dict) :
  kws !! "self" = None ->
  (forall n, n ∈ param_names _get_sig -> kws !! n = None) ->
  bind_args _get_sig [a1; a2; a3; a4; a5; a6; a7] kws =
  inr (list_to_map [("keyword", a1); ("entity_id", a2); ("sort", a3); ("include_test", a4);
                    ("page", a5); ("size", a6); ("locale", a7)], kws).
Proof.
  intros Hself H. unfold bind_args, bind_locals.
  rewrite (contains_false _ _ Hself). cbn [_get_sig bind_positional].
  rewrite existsb_none.
  - cbn [bind_keywords rbind]. do 2 f_equal.
    apply map_eq. intros n.
    destruct (decide (n ∈ param_names _get_sig)) as [Hn|Hn].
    + by rewrite filter_params_none, H.
    + by apply filter_params_other.
  - intros [n v] Hn. simpl. apply contains_false, H.
    unfold param_names, _get_sig. simpl.
    repeat (apply elem_of_cons in Hn as [[= -> _]|Hn]; [compute_done|]).
    by apply elem_of_nil in Hn.
Qed.

(** ** The shared request assembly *)

Lemma search_args_id (l kwargs : dict) :
  search_args l kwargs !! "id" = Some (l !!! "entity_id").
Proof.
  unfold search_args. do 2 rewrite update_cons.
  rewrite update_lookup_other by (simpl; compute_done).
  by rewrite lookup_insert_eq.
Qed.

Lemma search_args_other (l kwargs : dict) (n : string) :
  n ∉ search_keys -> search_args l kwargs !! n = kwargs !! n.
Proof. intros Hn. by apply update_lookup_other. Qed.

(** The dict that [_get] normalises does not depend on an [id] among the
    extra keywords. *)
Lemma search_args_kwargs_id (ps : list string) (l kw : dict) (v : pyval) :
  "id" ∉ ps ->
  search_args l (filter (fun kv => kv.1 ∉ ps) (<["id" := v]> kw)) =
  search_args l (filter (fun kv => kv.1 ∉ ps) (delete "id" kw)).
Proof.
  intros Hid. apply map_eq. intros n.
  destruct (decide (n ∈ search_keys)) as [Hn|Hn].
  - by apply update_covered.
  - rewrite !search_args_other by done.
    assert (n ≠ "id") by (intros ->; apply Hn; compute_done).
    destruct (decide (n ∈ ps)) as [Hp|Hp].
    + by rewrite !filter_params_none.
    + rewrite !filter_params_other by done.
      rewrite lookup_insert_ne by done. by rewrite lookup_delete_ne.
Qed.

Lemma __get_eq {Paged Json : Type} (self : query_type) (params : dict) :
  params !! "self" = None ->
  @__get Paged Json self [] params = ApiSearch (resource self) params Ret.
Proof.
  intros Hself. unfold __get, bind_args, bind_locals.
  rewrite (contains_false _ _ Hself). cbn. by rewrite filter_no_params.
Qed.

(** [__get] either raises while binding or makes the search call with the
    dict it was given. *)
Lemma __get_search {Paged Json : Type} (self : query_type) (params0 params : dict)
    (r : string) (k : Paged -> prog Paged Json Paged) :
  @__get Paged Json self [] params0 = ApiSearch r params k -> params = params0.
Proof.
  unfold __get, bind_args, bind_locals.
  destruct (contains params0 "self"); [done|]. cbn.
  rewrite filter_no_params. by intros [= _ ->].
Qed.

Lemma _get_bound {Paged Json : Type} (table : list (string * string)) (self : query_type)
    (pos : list pyval) (kw l kwargs : dict) :
  bind_args _get_sig pos kw = inr (l, kwargs) ->
  @_get Paged Json table self pos kw =
  pbind (lift (_search_params table (search_args l kwargs))) (fun params => __get self [] params).
Proof. intros H. unfold _get. by rewrite H. Qed.

Lemma _get_eq {Paged Json : Type} (table : list (string * string)) (self : query_type)
    (pos : list pyval) (kw l kwargs params : dict) :
  bind_args _get_sig pos kw = inr (l, kwargs) ->
  _search_params table (search_args l kwargs) = inr params ->
  params !! "self" = None ->
  @_get Paged Json table self pos kw = ApiSearch (resource self) params Ret.
Proof.
  intros Hb Hp Hself. rewrite (_get_bound table self pos kw l kwargs Hb), Hp.
  cbn [lift pbind]. by apply __get_eq.
Qed.

(** A key that no entry renames to is, after the loop, either gone or as
    it was. *)
Lemma rename_loop_no_target (items : list (string * string)) (kwargs R : dict) (x : string) :
  (forall k, (k, x) ∈ items -> k = x) ->
  rename_loop items kwargs = inr R -> R !! x = None \/ R !! x = kwargs !! x.
Proof.
  revert kwargs. induction items as [|[k v] items IH]; intros kwargs H HR.
  - simpl in HR. injection HR as <-. by right.
  - rewrite rename_loop_cons in HR.
    assert (H' : forall k', (k', x) ∈ items -> k' = x) by (intros k' Hin; apply H; by right).
    destruct (kwargs !! k) as [y|]; [|by apply IH].
    destruct (String.eqb k v) eqn:Hkv; [by apply IH|].
    apply String.eqb_neq in Hkv.
    destruct (decide (k = x)) as [->|Hk].
    + left. apply (rename_loop_fresh items (delete x (<[v := y]> kwargs)) R x H'); [|done].
      apply lookup_delete_eq.
    + destruct (IH _ H' HR) as [Hx|Hx]; [by left|]. right. rewrite Hx.
      rewrite lookup_delete_ne by done. apply lookup_insert_ne.
      intros ->. apply Hkv, H. left.
Qed.


(** C6: [by_id] asks the client for the object by the resource path of the
    query class and the identifier it was given, once; it returns what
    [from_json] of the class's model makes of the client's answer, and
    passes on the client's exception when there is one. *)
Theorem by_id_fetches_and_builds {Paged Json Model W : Type}
    (from_json : model_class -> Json -> result Model)
    (c : api_client Paged Json W) (self : query_type) (s : pyval) (w : W) :
  run c (by_id from_json self s) w [] =
  (let* resp := (_get_id c (resource self) s w).1 in from_json (model self) resp,
   (_get_id c (resource self) s w).2,
   [GetIdCall (resource self) s]).
Proof.
  unfold by_id. simpl.
  destruct (_get_id c (resource self) s w) as [[e|resp] w']; simpl; [done|].
  by destruct (from_json (model self) resp).
Qed.

(** C10: an [id] among the extra keywords of [_get] is overwritten by
    [entity_id] when the parameters are merged, so that the call does what
    it does without that keyword; and when [entity_id] is [None] and no
    entry of the table renames to [id], the mapping handed to the client's
    search has no key [id]. *)
Theorem get_overwrites_kwargs_id {Paged Json : Type} (table : list (string * string))
    (self : query_type) (pos : list pyval) (kw l kwargs : dict) (v : pyval) :
  bind_args _get_sig pos (<["id" := v]> kw) = inr (l, kwargs) ->
  search_args l kwargs !! "id" = Some (l !!! "entity_id") /\
  @_get Paged Json table self pos (<["id" := v]> kw) = _get table self pos (delete "id" kw) /\
  (l !! "entity_id" = Some PyNone ->
   (forall k, (k, "id") ∈ table -> k = "id") ->
   forall r params k,
     @_get Paged Json table self pos (<["id" := v]> kw) = ApiSearch r params k ->
     params !! "id" = None).
Proof.
  intros Hb. split; [apply search_args_id|]. split.
  - unfold _get, bind_args.
    rewrite (bind_locals_agree _get_sig pos (<["id" := v]> kw) (delete "id" kw)).
    + destruct (bind_locals _get_sig pos (delete "id" kw)) as [e|l0]; [done|].
      cbn [rbind lift pbind]. rewrite search_args_kwargs_id; [done|].
      compute_done.
    + rewrite lookup_insert_ne by done. by rewrite lookup_delete_ne.
    + intros n Hn.
      assert (n ≠ "id") by (intros ->; revert Hn; compute_done).
      rewrite lookup_insert_ne by done. by rewrite lookup_delete_ne.
  - intros Hnone Htable r params k.
    rewrite (_get_bound table self pos _ l kwargs Hb).
    destruct (search_params_eq table (search_args l kwargs)) as (R0 & HR0 & ->).
    cbn [lift pbind]. intros Hget. apply __get_search in Hget as ->.
    rewrite filter_not_none_lookup.
    destruct (rename_loop_no_target table _ R0 "id" Htable HR0) as [->| ->]; [done|].
    rewrite search_args_id. by rewrite (lookup_total_correct l "entity_id" _ Hnone).
Qed.

(** ** The query classes *)

Lemma find_eq {Paged Json : Type} (table : list (string * string)) (self : query_type)
    (ps : signature) (pos : list pyval) (kw : dict) :
  find_sig self = Some ps ->
  @find Paged Json table self pos kw =
  pbind (lift (bind_args ps pos kw)) (fun '(l, kwargs) =>
    pbind (lift (keywords (find_keywords self l) kwargs)) (fun kws =>
      _get table self (find_positional self l) kws)).
Proof. destruct self; intros [= <-]; reflexivity. Qed.

Lemma find_keywords_params (self : query_type) (ps : signature) (l : dict) (n : string) :
  find_sig self = Some ps -> n ∈ (find_keywords self l).*1 -> n ∈ param_names ps.
Proof.
  destruct self; intros [= <-] Hn; simpl in Hn; names_in Hn ltac:(compute_done).
Qed.

Lemma find_keywords_not_get (self : query_type) (l : dict) (n : string) :
  n ∈ "self" :: param_names _get_sig -> n ∉ (find_keywords self l).*1.
Proof.
  intros Hn. unfold param_names, _get_sig in Hn. simpl in Hn.
  destruct self; names_in Hn ltac:(compute_done).
Qed.

Lemma find_params_get (self : query_type) (ps : signature) (n : string) :
  find_sig self = Some ps -> n ∈ param_names _get_sig -> n ≠ "entity_id" ->
  n ∈ param_names ps.
Proof.
  intros Hps Hn Hne. unfold param_names, _get_sig in Hn. simpl in Hn.
  destruct self; simpl in Hps; try discriminate Hps; injection Hps as <-;
    names_in Hn ltac:(first [done | compute_done]).
Qed.

(** C5 (amended): [AttractionQuery], [ClassificationQuery], [EventQuery]
    and [VenueQuery] have a [find] that binds its named parameters and
    calls [_get] with them, the class's own ID parameter in the place of
    [entity_id], and [_get] accepts that call; an [entity_id] among the
    extra keywords is a [TypeError]. [SegmentQuery], [GenreQuery] and
    [SubGenreQuery] have no [find]: calling it is an [AttributeError]. *)
Theorem find_forwards_to_get {Paged Json : Type} (table : list (string * string))
    (self : query_type) :
  (find_sig self = None <-> self ∈ [SegmentQuery; GenreQuery; SubGenreQuery]) /\
  (find_sig self = None ->
   forall pos kw, @find Paged Json table self pos kw = Raise AttributeError) /\
  (forall ps, find_sig self = Some ps ->
   forall pos kw l kwargs, bind_args ps pos kw = inr (l, kwargs) ->
     (kwargs !! "entity_id" = None ->
      @find Paged Json table self pos kw =
        _get table self (find_positional self l) (update kwargs (find_keywords self l)) /\
      exists l',
        bind_args _get_sig (find_positional self l) (update kwargs (find_keywords self l)) =
          inr (l', update kwargs (find_keywords self l)) /\
        l' !! "entity_id" = Some (l !!! find_entity self)) /\
     (is_Some (kwargs !! "entity_id") ->
      @find Paged Json table self pos kw = Raise TypeError)).
Proof.
  split; [|split].
  - destruct self; simpl; split; intros H; try done; try compute_done;
      exfalso; repeat (apply elem_of_cons in H as [H|H]; [discriminate H|]);
      by apply elem_of_nil in H.
  - destruct self; simpl; intros H; try discriminate H; reflexivity.
  - intros ps Hps pos kw l kwargs Hb.
    assert (Hkws : keywords (find_keywords self l) kwargs =
                   inr (update kwargs (find_keywords self l))).
    { apply keywords_fresh. intros n Hn.
      apply (bind_args_kwargs_param _ _ _ _ _ n Hb).
      by apply (find_keywords_params self ps l). }
    assert (Hfind : @find Paged Json table self pos kw =
              _get table self (find_positional self l) (update kwargs (find_keywords self l))).
    { rewrite (find_eq table self ps pos kw Hps), Hb. cbn [lift pbind]. by rewrite Hkws. }
    assert (Hother : forall n, n ∈ "self" :: param_names _get_sig ->
              update kwargs (find_keywords self l) !! n = kwargs !! n).
    { intros n Hn. apply update_lookup_other. by apply find_keywords_not_get. }
    split.
    + intros Hentity. split; [exact Hfind|]. eexists. split.
      * apply bind_args_get_positional.
        -- rewrite Hother by left. by apply (bind_args_kwargs_self _ _ _ _ _ Hb).
        -- intros n Hn. rewrite Hother by by right.
           destruct (decide (n = "entity_id")) as [->|Hne]; [done|].
           apply (bind_args_kwargs_param _ _ _ _ _ n Hb).
           by apply (find_params_get self).
      * cbn [list_to_map foldr uncurry fst snd]. rewrite lookup_insert_ne by done.
        apply lookup_insert_eq.
    + intros [x Hx]. rewrite Hfind. unfold _get, bind_args, bind_locals.
      rewrite (contains_false _ "self").
      2:{ rewrite Hother by left. by apply (bind_args_kwargs_self _ _ _ _ _ Hb). }
      cbn [find_positional _get_sig bind_positional existsb fst].
      rewrite (contains_false _ "keyword").
      2:{ rewrite Hother by compute_done.
          apply (bind_args_kwargs_param _ _ _ _ _ _ Hb).
          apply (find_params_get self); [done | compute_done | done]. }
      rewrite (contains_true _ "entity_id" x); [done|].
      by rewrite Hother by compute_done.
Qed.

(** C8: [by_location] on the events query with latitude [33.7], longitude
    [-84.4] and radius [5] calls [find] with [latlong] the string
    ["33.7,-84.4"] and [radius] the string ["5"], next to [unit], [sort]
    and the extra keywords as they were given. *)
Theorem by_location_coerces_to_text {Paged Json : Type} (table : list (string * string))
    (pos : list pyval) (kw l kwargs : dict) :
  bind_args by_location_sig pos kw = inr (l, kwargs) ->
  l !! "latitude" = Some (PyFloat (PyFloat.of_decimal false 337 (-1))) ->
  l !! "longitude" = Some (PyFloat (PyFloat.of_decimal true 844 (-1))) ->
  l !! "radius" = Some (PyInt 5) ->
  kwargs !! "latlong" = None ->
  exists kws,
    @by_location Paged Json table EventQuery pos kw = find table EventQuery [] kws /\
    kws !! "latlong" = Some (PyStr "33.7,-84.4") /\
    kws !! "radius" = Some (PyStr "5") /\
    kws !! "unit" = Some (l !!! "unit") /\
    kws !! "sort" = Some (l !!! "sort") /\
    forall n, n ∉ ["latlong"; "radius"; "unit"; "sort"] -> kws !! n = kwargs !! n.
Proof.
  intros Hb Hlat Hlong Hradius Hfree.
  unfold by_location, EventQuery_by_location. rewrite Hb. cbn [lift pbind].
  rewrite (lookup_total_correct l "latitude" _ Hlat).
  rewrite (lookup_total_correct l "longitude" _ Hlong).
  rewrite (lookup_total_correct l "radius" _ Hradius).
  assert (Hla : py_str (PyFloat (PyFloat.of_decimal false 337 (-1))) = inr "33.7")
    by (vm_compute; reflexivity).
  assert (Hlo : py_str (PyFloat (PyFloat.of_decimal true 844 (-1))) = inr "-84.4")
    by (vm_compute; reflexivity).
  assert (Hr : py_str (PyInt 5) = inr "5") by (vm_compute; reflexivity).
  rewrite Hla, Hlo, Hr. clear Hla Hlo Hr Hlat Hlong Hradius. cbn [lift pbind].
  change ("33.7" ++ "," ++ "-84.4")%string with "33.7,-84.4".
  rewrite keywords_fresh.
  - cbn [lift pbind]. eexists. split; [reflexivity|].
    split; [|split; [|split; [|split]]].
    + rewrite update_cons, update_lookup_other by compute_done. apply lookup_insert_eq.
    + do 2 rewrite update_cons. rewrite update_lookup_other by compute_done.
      apply lookup_insert_eq.
    + do 3 rewrite update_cons. rewrite update_lookup_other by compute_done.
      apply lookup_insert_eq.
    + do 4 rewrite update_cons. rewrite update_lookup_other by compute_done.
      apply lookup_insert_eq.
    + intros n Hn. by apply update_lookup_other.
  - intros n Hn. simpl in Hn.
    apply elem_of_cons in Hn as [->|Hn]; [done|].
    apply (bind_args_kwargs_param _ _ _ _ _ n Hb).
    names_in Hn ltac:(compute_done).
Qed.

(** * Evaluation *)

Example py_str_scalars :
  py_str <$> [PyInt 5; PyInt (-120); PyStr "10"; PyNone;
              PyFloat (PyFloat.of_decimal false 337 (-1));
              PyFloat (PyFloat.of_decimal true 844 (-1));
              PyFloat (PyFloat.of_decimal false 1 (-1));
              PyFloat (PyFloat.of_decimal false 5 0);
              PyFloat (PyFloat.of_decimal false 1 16);
              PyFloat (PyFloat.of_decimal false 1 (-5));
              PyFloat (PyFloat.of_rational false 1 3)]
  = inr <$> ["5"; "-120"; "10"; "None"; "33.7"; "-84.4"; "0.1"; "5.0"; "1e+16"; "1e-05";
             "0.3333333333333333"].
Proof. vm_compute. reflexivity. Qed.

(** Every encoding of a double prints as the double does. *)
Example py_str_encodings :
  py_str <$> [PyFloat (DFinite false 4742853357574554 (-47));
              PyFloat (DFinite false 2371426678787277 (-46));
              PyFloat (DFinite false 1 (-1));
              PyFloat (DFinite true 3 0);
              PyFloat (DFinite false 1 1024);
              PyFloat (DFinite false 1 (-1080))]
  = inr <$> ["33.7"; "33.7"; "0.5"; "-3.0"; "inf"; "0.0"].
Proof. vm_compute. reflexivity. Qed.

Example search_params_sample :
  _search_params sample_attr_map
    {[ "venue_id" := PyStr "KovZpZA7AAEA"; "start_date_time" := PyNone;
       "page" := PyInt 0; "keyword" := PyStr "" ]}
  = inr {[ "venueId" := PyStr "KovZpZA7AAEA"; "page" := PyInt 0; "keyword" := PyStr "" ]}.
Proof. compute_done. Qed.

Example find_events_sample :
  outcome (@find unit unit sample_attr_map EventQuery []
             {[ "event_id" := PyStr "abc123"; "venue_id" := PyStr "KovZpZA7AAEA" ]})
  = Some (inr ("events", {[ "sort" := PyStr "date,asc"; "id" := PyStr "abc123";
                            "venueId" := PyStr "KovZpZA7AAEA" ]})).
Proof. compute_done. Qed.

Example find_rejects_entity_id :
  outcome (@find unit unit sample_attr_map EventQuery [] {[ "entity_id" := PyStr "abc123" ]})
  = Some (inl TypeError).
Proof. compute_done. Qed.

Example by_location_sample :
  outcome (@by_location unit unit sample_attr_map EventQuery
             [PyFloat (PyFloat.of_decimal false 337 (-1));
              PyFloat (PyFloat.of_decimal true 844 (-1)); PyInt 5] ∅)
  = Some (inr ("events", {[ "latlong" := PyStr "33.7,-84.4"; "radius" := PyStr "5";
                            "unit" := PyStr "miles"; "sort" := PyStr "relevance,desc" ]})).
Proof. compute_done. Qed.

Example by_location_second_latlong :
  outcome (@by_location unit unit sample_attr_map EventQuery
             [PyInt 1; PyInt 2; PyInt 3] {[ "latlong" := PyStr "1,2" ]})
  = Some (inl TypeError).
Proof. compute_done. Qed.

(** An extra keyword [id] of [find] is not sent: [_get] puts the ID
    parameter, here [None], in its place. *)
Example find_drops_extra_id :
  outcome (@find unit unit sample_attr_map VenueQuery []
             {[ "id" := PyStr "zzz"; "genreId" := PyStr "KnvZfZ7vAeA" ]})
  = Some (inr ("venues", {[ "genreId" := PyStr "KnvZfZ7vAeA" ]})).
Proof. compute_done. Qed.

Example by_name_sample :
  outcome (@by_name unit unit sample_attr_map VenueQuery [PyStr "Fox Theatre"]
             {[ "state_code" := PyStr "GA" ]})
  = Some (inr ("venues", {[ "keyword" := PyStr "Fox Theatre"; "state_code" := PyStr "GA" ]})).
Proof. compute_done. Qed.

Example by_location_on_venues :
  outcome (@by_location unit unit sample_attr_map VenueQuery [PyInt 1; PyInt 2] ∅)
  = Some (inl AttributeError).
Proof. compute_done. Qed.

(** * The statements at concrete inputs *)

Lemma sample_attr_map_unique : unique_keys sample_attr_map.
Proof. compute_done. Qed.

Lemma sample_attr_map_no_chain : no_chain sample_attr_map.
Proof. compute_done. Qed.

Lemma colliding_attr_map_unique : unique_keys colliding_attr_map.
Proof. compute_done. Qed.

Lemma colliding_attr_map_no_chain : no_chain colliding_attr_map.
Proof. compute_done. Qed.



(** C2 at a mapping with [0] and the empty string in it. *)
Lemma search_params_no_none_keeps_falsy_witness :
  let P : dict := {[ "page" := PyInt 0; "keyword" := PyStr ""; "venue_id" := PyNone ]} in
  exists R, _search_params sample_attr_map P = inr R /\
    (forall k, R !! k ≠ Some PyNone) /\
    R !! "page" = Some (PyInt 0) /\ R !! "keyword" = Some (PyStr "").
Proof.
  intros P.
  destruct (search_params_no_none_keeps_falsy sample_attr_map P) as (R & HR & Hnone & Hkeep).
  exists R. split; [exact HR|]. split; [exact Hnone|].
  pose proof (Hkeep sample_attr_map_unique sample_attr_map_no_chain) as H.
  clear HR Hnone Hkeep. split.
  - apply H; [compute_done | discriminate | compute_done |].
    intros K' Hin Hne. entries_in Hin ltac:(by destruct Hne).
  - apply H; [compute_done | discriminate | compute_done |].
    intros K' Hin Hne. entries_in Hin ltac:(by destruct Hne).
Defined.

(** C2 as stated fails when the key is the target of a rename: with
    [venueId=0] next to [venue_id="5"] the result has ["5"] at [venueId]. *)
Lemma falsy_value_overwritten :
  ~ falsy_preserved sample_attr_map
      {[ "venueId" := PyInt 0; "venue_id" := PyStr "5" ]} "venueId" (PyInt 0).
Proof.
  intros H. destruct H as (R & HR & HK).
  - compute_done.
  - discriminate.
  - reflexivity.
  - compute_done.
  - rewrite (search_params_lookup _ _ _ _ sample_attr_map_unique sample_attr_map_no_chain HR)
      in HK.
    clear HR. refute HK.
Qed.

(** C3 at [venue_id="KovZpZA7AAEA"]. *)
Lemma renamed_key_moves_witness :
  exists R, _search_params sample_attr_map {[ "venue_id" := PyStr "KovZpZA7AAEA" ]} = inr R /\
    R !! "venue_id" = None /\
    R !! "venueId" = Some (PyStr "KovZpZA7AAEA").
Proof.
  apply (renamed_key_moves sample_attr_map {[ "venue_id" := PyStr "KovZpZA7AAEA" ]}
           "venue_id" "venueId" (PyStr "KovZpZA7AAEA")).
  - exact sample_attr_map_unique.
  - exact sample_attr_map_no_chain.
  - compute_done.
  - discriminate.
  - compute_done.
  - intros K' HK' _ _. apply lookup_singleton_ne. congruence.
Defined.

(** C3 as stated fails for a renamed key whose value is [None], as every
    filter that [find] was not given is: the result has no wire key. *)
Lemma renamed_none_is_dropped :
  ~ rename_moves sample_attr_map {[ "venue_id" := PyNone ]} "venue_id" "venueId" PyNone.
Proof.
  intros H. destruct H as (R & HR & _ & HW).
  - compute_done.
  - discriminate.
  - compute_done.
  - intros K' HK' _ _. apply lookup_singleton_ne. congruence.
  - rewrite (search_params_lookup _ _ _ _ sample_attr_map_unique sample_attr_map_no_chain HR)
      in HW.
    clear HR. refute HW.
Qed.

(** C4 at [venue_id="5"] and [event_id="6"], both renamed to [id]. *)
Lemma collision_last_rename_wins_witness :
  exists R, _search_params colliding_attr_map
              {[ "venue_id" := PyStr "5"; "event_id" := PyStr "6" ]} = inr R /\
    R !! "id" = Some (PyStr "6").
Proof.
  apply (collision_last_rename_wins [("venue_id", "id")] []
           {[ "venue_id" := PyStr "5"; "event_id" := PyStr "6" ]}
           "venue_id" "event_id" "id" (PyStr "5") (PyStr "6")).
  - exact colliding_attr_map_unique.
  - exact colliding_attr_map_no_chain.
  - compute_done.
  - discriminate.
  - discriminate.
  - compute_done.
  - compute_done.
  - intros K' Hin. by apply elem_of_nil in Hin.
Defined.

(** C4 as stated fails when the later key holds [None]: the result has no
    [id] at all, and the value of the earlier key is lost. *)
Lemma collision_with_none_drops_wire_key :
  ~ last_write_wins [("venue_id", "id")] []
      {[ "venue_id" := PyStr "5"; "event_id" := PyNone ]}
      "venue_id" "event_id" "id" (PyStr "5") PyNone.
Proof.
  intros H. destruct H as (R & HR & HW).
  - compute_done.
  - discriminate.
  - discriminate.
  - discriminate.
  - compute_done.
  - compute_done.
  - intros K' Hin. by apply elem_of_nil in Hin.
  - rewrite (search_params_lookup _ _ _ _ colliding_attr_map_unique
               colliding_attr_map_no_chain HR) in HW.
    clear HR. refute HW.
Qed.

(** C5 at [VenueQuery.find(state_code="GA")] and at [SegmentQuery.find()]. *)
Lemma find_forwards_to_get_witness :
  let l : dict :=
    list_to_map [("keyword", PyNone); ("venue_id", PyNone); ("sort", PyNone);
                 ("state_code", PyStr "GA"); ("country_code", PyNone); ("source", PyNone);
                 ("include_test", PyNone); ("page", PyNone); ("size", PyNone);
                 ("locale", PyNone)] in
  @find unit unit sample_attr_map VenueQuery [] {[ "state_code" := PyStr "GA" ]} =
    _get sample_attr_map VenueQuery (find_positional VenueQuery l)
      (update ∅ (find_keywords VenueQuery l)) /\
  @find unit unit sample_attr_map SegmentQuery [] ∅ = Raise AttributeError.
Proof.
  intros l.
  destruct (@find_forwards_to_get unit unit sample_attr_map VenueQuery) as (_ & _ & Hfind).
  destruct (@find_forwards_to_get unit unit sample_attr_map SegmentQuery) as (_ & Hnone & _).
  split.
  - destruct (Hfind VenueQuery_find_sig eq_refl [] {[ "state_code" := PyStr "GA" ]} l ∅)
      as [Hcall _].
    + compute_done.
    + destruct (Hcall eq_refl) as [Heq _]. exact Heq.
  - apply Hnone. reflexivity.
Defined.

(** C5 as stated fails for the segments query: it has no [find]. *)
Lemma segment_query_has_no_find :
  ~ @exposes_find unit unit sample_attr_map SegmentQuery.
Proof. intros H. apply (H [] ∅). reflexivity. Qed.

(** C7 at a mapping of wire keys. *)
Lemma search_params_idempotent_witness :
  _search_params sample_attr_map {[ "venueId" := PyStr "KovZpZA7AAEA"; "size" := PyInt 0 ]} =
  inr {[ "venueId" := PyStr "KovZpZA7AAEA"; "size" := PyInt 0 ]}.
Proof.
  apply search_params_idempotent.
  - intros K W Hin Hne.
    entries_in Hin ltac:(first [by destruct Hne | compute_done]).
  - intros k Hk.
    assert (HF : map_Forall (fun _ v => v ≠ PyNone)
                   ({[ "venueId" := PyStr "KovZpZA7AAEA"; "size" := PyInt 0 ]} : dict))
      by compute_done.
    by apply (HF k PyNone Hk).
Defined.

(** C8 at [by_location(33.7, -84.4, 5)]. *)
Lemma by_location_coerces_to_text_witness :
  exists kws,
    @by_location unit unit sample_attr_map EventQuery
      [PyFloat (PyFloat.of_decimal false 337 (-1)); PyFloat (PyFloat.of_decimal true 844 (-1));
       PyInt 5] ∅ = find sample_attr_map EventQuery [] kws /\
    kws !! "latlong" = Some (PyStr "33.7,-84.4") /\
    kws !! "radius" = Some (PyStr "5").
Proof.
  destruct (@by_location_coerces_to_text unit unit sample_attr_map
              [PyFloat (PyFloat.of_decimal false 337 (-1));
               PyFloat (PyFloat.of_decimal true 844 (-1)); PyInt 5] ∅
              (list_to_map [("latitude", PyFloat (PyFloat.of_decimal false 337 (-1)));
                            ("longitude", PyFloat (PyFloat.of_decimal true 844 (-1)));
                            ("radius", PyInt 5); ("unit", PyStr "miles");
                            ("sort", PyStr "relevance,desc")]) ∅)
    as (kws & Hcall & Hlatlong & Hradius & _).
  - compute_done.
  - compute_done.
  - compute_done.
  - compute_done.
  - compute_done.
  - exists kws. split; [exact Hcall|]. split; [exact Hlatlong | exact Hradius].
Defined.

(** C9 at a filter the table does not know. *)
Lemma unknown_key_passes_through_witness :
  exists R, _search_params sample_attr_map
              {[ "genreId" := PyStr "KnvZfZ7vAeA"; "venue_id" := PyStr "5" ]} = inr R /\
    R !! "genreId" = Some (PyStr "KnvZfZ7vAeA").
Proof.
  destruct (unknown_key_passes_through sample_attr_map
              {[ "genreId" := PyStr "KnvZfZ7vAeA"; "venue_id" := PyStr "5" ]})
    as (R & HR & Hpass).
  exists R. split; [exact HR|].
  apply (Hpass sample_attr_map_unique sample_attr_map_no_chain); clear HR Hpass.
  - compute_done.
  - discriminate.
  - compute_done.
  - intros K' Hin Hne. entries_in Hin ltac:(by destruct Hne).
Defined.

(** C9 as stated fails for a key that is the target of a rename: with
    [venueId="1"] next to [venue_id="2"] the result has ["2"] at
    [venueId]. *)
Lemma unknown_key_overwritten :
  ~ unknown_passes sample_attr_map
      {[ "venueId" := PyStr "1"; "venue_id" := PyStr "2" ]} "venueId" (PyStr "1").
Proof.
  intros H. destruct H as (R & HR & HK).
  - compute_done.
  - discriminate.
  - compute_done.
  - rewrite (search_params_lookup _ _ _ _ sample_attr_map_unique sample_attr_map_no_chain HR)
      in HK.
    clear HR. refute HK.
Qed.

(** C10 at [_get(id="zzz")]. *)
Lemma get_overwrites_kwargs_id_witness :
  @_get unit unit sample_attr_map EventQuery [] (<["id" := PyStr "zzz"]> ∅) =
    _get sample_attr_map EventQuery [] (delete "id" ∅) /\
  forall r params k,
    @_get unit unit sample_attr_map EventQuery [] (<["id" := PyStr "zzz"]> ∅) =
      ApiSearch r params k ->
    params !! "id" = None.
Proof.
  destruct (@get_overwrites_kwargs_id unit unit sample_attr_map EventQuery [] ∅
              (list_to_map [("keyword", PyNone); ("entity_id", PyNone); ("sort", PyNone);
                            ("include_test", PyNone); ("page", PyNone); ("size", PyNone);
                            ("locale", PyNone)])
              {[ "id" := PyStr "zzz" ]} (PyStr "zzz"))
    as (_ & Hsame & Hnone).
  - compute_done.
  - split; [exact Hsame|]. apply Hnone; clear Hsame Hnone.
    + compute_done.
    + intros k Hin. entries_in Hin ltac:(reflexivity).
Defined.

(** * Further properties *)

(** ** [_search_params] on any table *)

Lemma rename_loop_size (items : list (string * string)) (kwargs R : dict) :
  rename_loop items kwargs = inr R -> (size R ≤ size kwargs)%nat.
Proof.
  revert kwargs. induction items as [|[k v] items IH]; intros kwargs HR.
  - simpl in HR. by injection HR as <-.
  - rewrite rename_loop_cons in HR. apply IH in HR. etrans; [exact HR|].
    destruct (kwargs !! k) as [y|] eqn:Hk; [|done].
    destruct (String.eqb k v) eqn:Hkv; [done|]. apply String.eqb_neq in Hkv.
    rewrite map_size_delete_Some by (rewrite lookup_insert_ne; eauto).
    pose proof (map_size_insert v y kwargs) as Hs.
    destruct (kwargs !! v); unfold id in Hs; lia.
Qed.

(** X1: normalising never makes a mapping larger: the result of
    [_search_params] has at most as many keys as its argument, whatever
    the table. *)
Theorem search_params_size (table : list (string * string)) (P : dict) :
  exists R, _search_params table P = inr R /\ (size R ≤ size P)%nat.
Proof.
  destruct (search_params_eq table P) as (R0 & HR0 & ->). eexists. split; [done|].
  etrans; [|exact (rename_loop_size table P R0 HR0)].
  apply map_subseteq_size, map_filter_subseteq.
Qed.

Lemma rename_loop_origin (items : list (string * string)) (kwargs R : dict)
    (x : string) (v : pyval) :
  rename_loop items kwargs = inr R -> R !! x = Some v ->
  (exists k, kwargs !! k = Some v) /\ (is_Some (kwargs !! x) \/ x ∈ wire_keys items).
Proof.
  revert kwargs. induction items as [|[k0 v0] items IH]; intros kwargs HR Hx.
  - simpl in HR. injection HR as <-. split; [eauto | left; eauto].
  - rewrite rename_loop_cons in HR.
    assert (Hwire : forall y, y ∈ wire_keys items -> y ∈ wire_keys ((k0, v0) :: items)).
    { intros y Hy. apply elem_of_wire_keys in Hy as (k & Hin & Hne).
      apply elem_of_wire_keys. exists k. split; [by right | done]. }
    destruct (IH _ HR Hx) as [[k Hk] Hkey]. clear IH HR Hx.
    destruct (kwargs !! k0) as [y|] eqn:Hk0.
    2:{ split; [eauto|]. destruct Hkey; [by left | right; by apply Hwire]. }
    destruct (String.eqb k0 v0) eqn:Hkv.
    { split; [eauto|]. destruct Hkey; [by left | right; by apply Hwire]. }
    apply String.eqb_neq in Hkv. split.
    + apply lookup_delete_Some in Hk as [_ Hk].
      apply lookup_insert_Some in Hk as [[_ <-]|[_ Hk]]; eauto.
    + destruct Hkey as [Hsome|Hw]; [|right; by apply Hwire].
      destruct Hsome as [u Hu]. apply lookup_delete_Some in Hu as [_ Hu].
      apply lookup_insert_Some in Hu as [[<- _]|[_ Hu]]; [|left; eauto].
      right. apply elem_of_wire_keys. exists k0. split; [left | done].
Qed.

(** X2: [_search_params] invents nothing: every value in its result is a
    value its argument held at some key, and every key of the result is a
    key of the argument or the wire key of a renaming entry of the table. *)
Theorem search_params_origin (table : list (string * string)) (P R : dict)
    (x : string) (v : pyval) :
  _search_params table P = inr R -> R !! x = Some v ->
  (exists k, P !! k = Some v) /\ (is_Some (P !! x) \/ x ∈ wire_keys table).
Proof.
  destruct (search_params_eq table P) as (R0 & HR0 & ->). intros [= <-] Hx.
  apply map_lookup_filter_Some in Hx as [Hx _].
  by apply (rename_loop_origin table P R0).
Qed.

Lemma search_params_none_only (table : list (string * string)) (P : dict) :
  (forall k v, P !! k = Some v -> v = PyNone) ->
  _search_params table P = inr ∅.
Proof.
  intros Hnone. destruct (search_params_eq table P) as (R0 & HR0 & ->). f_equal.
  apply map_eq. intros x. rewrite lookup_empty, filter_not_none_lookup.
  destruct (R0 !! x) as [v|] eqn:Hx; [|done].
  destruct (rename_loop_origin table P R0 x v HR0 Hx) as [[k Hk] _].
  by rewrite (Hnone k v Hk).
Qed.

(** X3: a mapping in which every value is [None] is normalised to the empty
    mapping, whatever the table: renames move the [None]s about and the
    filter drops them all. *)
Theorem search_params_all_none (table : list (string * string)) (P : dict) :
  (forall k v, P !! k = Some v -> v = PyNone) ->
  _search_params table P = inr ∅.
Proof. apply search_params_none_only. Qed.

(** X4: for a table that has each key once and no chain of renames,
    normalising twice is normalising once. *)
Theorem search_params_twice (table : list (string * string)) (P R : dict) :
  unique_keys table -> no_chain table ->
  _search_params table P = inr R ->
  _search_params table R = inr R.
Proof.
  intros Hu Hc HR. unfold _search_params at 1.
  rewrite (rename_loop_id table R).
  - simpl. f_equal. apply map_eq. intros k. rewrite filter_not_none_lookup.
    pose proof (search_params_no_none table P R k HR) as Hk.
    by destruct (R !! k) as [[]|].
  - intros K W Hin Hne. rewrite (search_params_lookup table P R K Hu Hc HR).
    rewrite decide_True; [done|]. apply elem_of_renamed_keys. eauto.
Qed.

(** ** What [_get] sends *)

Lemma untouched_spec (table : list (string * string)) (x : string) :
  untouched table x <-> forall k w, (k, w) ∈ table -> k ≠ w -> k ≠ x /\ w ≠ x.
Proof.
  unfold untouched. split.
  - intros [Hk Hw] k w Hin Hne. split; intros ->.
    + apply Hk, elem_of_renamed_keys. eauto.
    + apply Hw, elem_of_wire_keys. eauto.
  - intros H. split; intros Hin.
    + apply elem_of_renamed_keys in Hin as (w & Hin & Hne). by destruct (H x w Hin Hne).
    + apply elem_of_wire_keys in Hin as (k & Hin & Hne). by destruct (H k x Hin Hne).
Qed.

Lemma not_wire_key_spec (table : list (string * string)) (x : string) :
  x ∉ wire_keys table -> forall k, (k, x) ∈ table -> k = x.
Proof.
  intros Hx k Hin. destruct (decide (k = x)) as [|Hne]; [done|].
  exfalso. apply Hx, elem_of_wire_keys. eauto.
Qed.

Lemma bind_locals_error (ps : signature) (pos : list pyval) (kw : dict) (e : exn) :
  bind_locals ps pos kw = inl e -> e = TypeError.
Proof.
  unfold bind_locals. destruct (contains kw "self"); [congruence|].
  destruct (bind_positional ps pos) as [[bound rest]|]; [|congruence].
  destruct (existsb _ bound); [congruence|].
  destruct (bind_keywords rest kw); congruence.
Qed.

Lemma bind_args_error (ps : signature) (pos : list pyval) (kw : dict) (e : exn) :
  bind_args ps pos kw = inl e -> e = TypeError.
Proof.
  unfold bind_args. destruct (bind_locals ps pos kw) as [e'|l] eqn:Hl; [|done].
  simpl. intros [= <-]. by apply (bind_locals_error ps pos kw).
Qed.

Lemma keywords_error (explicit : list (string * pyval)) (kwargs : dict) (e : exn) :
  keywords explicit kwargs = inl e -> e = TypeError.
Proof. unfold keywords. destruct (existsb _ explicit); congruence. Qed.

Lemma raises_or_searches_raise {Paged Json : Type} (errors : list exn) (r : string) (e : exn) :
  e ∈ errors -> @raises_or_searches Paged Json errors r (Raise e).
Proof. intros He. left. eauto. Qed.

Lemma raises_or_searches_more {Paged Json : Type} (errors errors' : list exn) (r : string)
    (p : prog Paged Json Paged) :
  (forall e, e ∈ errors -> e ∈ errors') ->
  raises_or_searches errors r p -> raises_or_searches errors' r p.
Proof. intros H [(e & He & ->)|Hs]; [left; eauto | by right]. Qed.

Lemma __get_shape {Paged Json : Type} (self : query_type) (params : dict) :
  (forall k, params !! k ≠ Some PyNone) ->
  @raises_or_searches Paged Json [TypeError] (resource self) (__get self [] params).
Proof.
  intros Hnone. unfold __get, bind_args, bind_locals.
  destruct (contains params "self").
  - apply raises_or_searches_raise. left.
  - cbn. rewrite filter_no_params. right. eauto.
Qed.

Lemma _get_shape {Paged Json : Type} (table : list (string * string)) (self : query_type)
    (pos : list pyval) (kw : dict) :
  @raises_or_searches Paged Json [TypeError] (resource self) (_get table self pos kw).
Proof.
  unfold _get. destruct (bind_args _get_sig pos kw) as [e|[l kwargs]] eqn:Hb.
  - apply bind_args_error in Hb as ->. apply raises_or_searches_raise. left.
  - cbn [lift pbind].
    destruct (search_params_eq table (search_args l kwargs)) as (R0 & _ & HR).
    rewrite HR. cbn [lift pbind]. apply __get_shape.
    intros k. by apply (search_params_no_none table (search_args l kwargs)).
Qed.

Lemma run_raises_or_searches {Paged Json W : Type} (c : api_client Paged Json W) (w : W)
    (errors : list exn) (r : string) (p : prog Paged Json Paged) :
  raises_or_searches errors r p -> raised_or_searched c w errors r (run c p w []).
Proof.
  intros [(e & He & ->)|(params & Hnone & ->)].
  - left. eauto.
  - right. exists params. split; [done|]. simpl.
    by destruct (_search c r params w) as [[e|x] w'].
Qed.

(** X5: a call of [_get] either raises [TypeError] before the client is
    asked anything, or makes exactly one call, [_search] on the resource of
    its class, with a mapping that holds no [None], and ends as the client
    does: with its answer or with its exception. *)
Theorem get_calls_search_once {Paged Json W : Type} (table : list (string * string))
    (c : api_client Paged Json W) (self : query_type) (pos : list pyval) (kw : dict) (w : W) :
  raised_or_searched c w [TypeError] (resource self) (run c (_get table self pos kw) w []).
Proof. apply run_raises_or_searches, _get_shape. Qed.

Lemma search_args_named (l kwargs : dict) (n : string) :
  n ∈ ["keyword"; "sort"; "include_test"; "page"; "size"; "locale"] ->
  search_args l kwargs !! n = Some (l !!! n).
Proof.
  intros Hn. unfold search_args.
  names_in Hn ltac:(idtac).
  - rewrite update_cons, update_lookup_other by compute_done. apply lookup_insert_eq.
  - do 3 rewrite update_cons. rewrite update_lookup_other by compute_done.
    apply lookup_insert_eq.
  - do 4 rewrite update_cons. rewrite update_lookup_other by compute_done.
    apply lookup_insert_eq.
  - do 5 rewrite update_cons. rewrite update_lookup_other by compute_done.
    apply lookup_insert_eq.
  - do 6 rewrite update_cons. rewrite update_lookup_other by compute_done.
    apply lookup_insert_eq.
  - do 7 rewrite update_cons. apply lookup_insert_eq.
Qed.

(** When nothing is renamed to [self], a call of [_get] that binds goes
    through to the client. *)
Lemma _get_succeeds {Paged Json : Type} (table : list (string * string)) (self : query_type)
    (pos : list pyval) (kw l kwargs : dict) :
  bind_args _get_sig pos kw = inr (l, kwargs) ->
  "self" ∉ wire_keys table ->
  exists R0,
    rename_loop table (search_args l kwargs) = inr R0 /\
    @_get Paged Json table self pos kw =
      ApiSearch (resource self) (filter (fun kv => kv.2 ≠ PyNone) R0) Ret.
Proof.
  intros Hb Hself.
  destruct (search_params_eq table (search_args l kwargs)) as (R0 & HR0 & HR).
  exists R0. split; [done|].
  apply (_get_eq table self pos kw l kwargs); [done | done |].
  rewrite filter_not_none_lookup.
  rewrite (rename_loop_fresh table (search_args l kwargs) R0 "self"); [done | | | done].
  - by apply not_wire_key_spec.
  - rewrite search_args_other by compute_done.
    by apply (bind_args_kwargs_self _ _ _ _ _ Hb).
Qed.

(** X6: when a call of [_get] binds and the table renames nothing to
    [self], the client's search is called, and each parameter of [_get]
    that the table leaves alone goes out under its own name ([entity_id]
    under [id]) with the value it was given, unless that value is [None]:
    then the key is left out. *)
Theorem get_sends_named_parameters {Paged Json : Type} (table : list (string * string))
    (self : query_type) (pos : list pyval) (kw l kwargs : dict) :
  bind_args _get_sig pos kw = inr (l, kwargs) ->
  "self" ∉ wire_keys table ->
  exists params,
    @_get Paged Json table self pos kw = ApiSearch (resource self) params Ret /\
    (untouched table "id" -> params !! "id" = not_none (Some (l !!! "entity_id"))) /\
    (forall n, n ∈ ["keyword"; "sort"; "include_test"; "page"; "size"; "locale"] ->
       untouched table n -> params !! n = not_none (Some (l !!! n))).
Proof.
  intros Hb Hself.
  destruct (_get_succeeds (Paged:=Paged) (Json:=Json) table self pos kw l kwargs Hb Hself)
    as (R0 & HR0 & Hget).
  eexists. split; [exact Hget|]. split.
  - intros Hid. rewrite filter_not_none_lookup.
    rewrite (rename_loop_frame table (search_args l kwargs) R0 "id"); [| |done].
    + by rewrite search_args_id.
    + by apply untouched_spec.
  - intros n Hn Hun. rewrite filter_not_none_lookup.
    rewrite (rename_loop_frame table (search_args l kwargs) R0 n); [| |done].
    + by rewrite search_args_named.
    + by apply untouched_spec.
Qed.

(** X7: an extra keyword of [_get] that the table leaves alone and that is
    none of the keys [_get] sets itself reaches the client under its name
    with its value, unless the value is [None]; and a key that is neither
    set by [_get], nor among the extra keywords, nor a wire key of the table
    is not sent. *)
Theorem get_passes_extra_keywords {Paged Json : Type} (table : list (string * string))
    (self : query_type) (pos : list pyval) (kw l kwargs : dict) :
  bind_args _get_sig pos kw = inr (l, kwargs) ->
  "self" ∉ wire_keys table ->
  exists params,
    @_get Paged Json table self pos kw = ApiSearch (resource self) params Ret /\
    (forall n, n ∉ search_keys -> untouched table n ->
       params !! n = not_none (kwargs !! n)) /\
    (forall n, n ∉ search_keys -> n ∉ wire_keys table -> kwargs !! n = None ->
       params !! n = None).
Proof.
  intros Hb Hself.
  destruct (_get_succeeds (Paged:=Paged) (Json:=Json) table self pos kw l kwargs Hb Hself)
    as (R0 & HR0 & Hget).
  eexists. split; [exact Hget|]. split.
  - intros n Hn Hun. rewrite filter_not_none_lookup.
    rewrite (rename_loop_frame table (search_args l kwargs) R0 n); [| |done].
    + by rewrite search_args_other.
    + by apply untouched_spec.
  - intros n Hn Hw Hk. rewrite filter_not_none_lookup.
    rewrite (rename_loop_fresh table (search_args l kwargs) R0 n); [done | | | done].
    + by apply not_wire_key_spec.
    + by rewrite search_args_other.
Qed.

(** ** What [find] sends *)

(** The call of [_get] that [find] makes, and how [_get] binds it. *)
Lemma find_calls_get {Paged Json : Type} (table : list (string * string)) (self : query_type)
    (ps : signature) (pos : list pyval) (kw l kwargs : dict) :
  find_sig self = Some ps ->
  bind_args ps pos kw = inr (l, kwargs) ->
  kwargs !! "entity_id" = None ->
  @find Paged Json table self pos kw =
    _get table self (find_positional self l) (update kwargs (find_keywords self l)) /\
  bind_args _get_sig (find_positional self l) (update kwargs (find_keywords self l)) =
    inr (list_to_map [("keyword", l !!! "keyword"); ("entity_id", l !!! find_entity self);
                      ("sort", l !!! "sort"); ("include_test", l !!! "include_test");
                      ("page", l !!! "page"); ("size", l !!! "size");
                      ("locale", l !!! "locale")],
         update kwargs (find_keywords self l)).
Proof.
  intros Hps Hb Hentity.
  assert (Hkws : keywords (find_keywords self l) kwargs =
                 inr (update kwargs (find_keywords self l))).
  { apply keywords_fresh. intros n Hn.
    apply (bind_args_kwargs_param _ _ _ _ _ n Hb).
    by apply (find_keywords_params self ps l). }
  assert (Hother : forall n, n ∈ "self" :: param_names _get_sig ->
            update kwargs (find_keywords self l) !! n = kwargs !! n).
  { intros n Hn. apply update_lookup_other. by apply find_keywords_not_get. }
  split.
  - rewrite (find_eq table self ps pos kw Hps), Hb. cbn [lift pbind]. by rewrite Hkws.
  - apply bind_args_get_positional.
    + rewrite Hother by left. by apply (bind_args_kwargs_self _ _ _ _ _ Hb).
    + intros n Hn. rewrite Hother by by right.
      destruct (decide (n = "entity_id")) as [->|Hne]; [done|].
      apply (bind_args_kwargs_param _ _ _ _ _ n Hb).
      by apply (find_params_get self).
Qed.

Lemma find_shape {Paged Json : Type} (table : list (string * string)) (self : query_type)
    (pos : list pyval) (kw : dict) :
  @raises_or_searches Paged Json
    (match find_sig self with Some _ => [TypeError] | None => [AttributeError] end)
    (resource self) (find table self pos kw).
Proof.
  destruct (find_sig self) as [ps|] eqn:Hps.
  - rewrite (find_eq table self ps pos kw Hps).
    destruct (bind_args ps pos kw) as [e|[l kwargs]] eqn:Hb.
    { apply bind_args_error in Hb as ->. apply raises_or_searches_raise. left. }
    cbn [lift pbind].
    destruct (keywords (find_keywords self l) kwargs) as [e|kws] eqn:Hk.
    { apply keywords_error in Hk as ->. apply raises_or_searches_raise. left. }
    cbn [lift pbind]. apply _get_shape.
  - assert (Hfind : @find Paged Json table self pos kw = Raise AttributeError)
      by (destruct self; simpl in Hps; try discriminate Hps; reflexivity).
    rewrite Hfind. apply raises_or_searches_raise. left.
Qed.

(** X8: [find] on a class that declares it either raises [TypeError]
    before the client is asked anything, or makes exactly one call,
    [_search] on the resource of the class, with a mapping that holds no
    [None], and ends as the client does; on a class without [find] the run
    ends in [AttributeError], the client's state is as it was and no call
    was made. *)
Theorem find_calls_search_once {Paged Json W : Type} (table : list (string * string))
    (c : api_client Paged Json W) (self : query_type) (pos : list pyval) (kw : dict) (w : W) :
  match find_sig self with
  | Some _ =>
      raised_or_searched c w [TypeError] (resource self) (run c (find table self pos kw) w [])
  | None => run c (find table self pos kw) w [] = (inl AttributeError, w, [])
  end.
Proof.
  pose proof (find_shape (Paged:=Paged) (Json:=Json) table self pos kw) as Hshape.
  destruct (find_sig self) as [ps|] eqn:Hps.
  - by apply run_raises_or_searches.
  - assert (Hfind : @find Paged Json table self pos kw = Raise AttributeError)
      by (destruct self; simpl in Hps; try discriminate Hps; reflexivity).
    rewrite Hfind. reflexivity.
Qed.

Lemma get_locals_entity (a1 a2 a3 a4 a5 a6 a7 : pyval) :
  (list_to_map [("keyword", a1); ("entity_id", a2); ("sort", a3); ("include_test", a4);
                ("page", a5); ("size", a6); ("locale", a7)] : dict) !!! "entity_id" = a2.
Proof.
  apply lookup_total_correct. cbn [list_to_map foldr uncurry fst snd].
  rewrite lookup_insert_ne by done. apply lookup_insert_eq.
Qed.

(** X9: the ID parameter that a class's [find] declares ([attraction_id],
    [classification_id], [event_id], [venue_id]) is sent to the client
    under the wire key [id], and no key [entity_id] is sent, when the table
    leaves [id] alone and renames nothing to [entity_id] or [self]; with
    the value [None] the key [id] is left out. *)
Theorem find_sends_own_id {Paged Json : Type} (table : list (string * string))
    (self : query_type) (ps : signature) (pos : list pyval) (kw l kwargs : dict) :
  find_sig self = Some ps ->
  bind_args ps pos kw = inr (l, kwargs) ->
  kwargs !! "entity_id" = None ->
  untouched table "id" -> "entity_id" ∉ wire_keys table -> "self" ∉ wire_keys table ->
  exists params,
    @find Paged Json table self pos kw = ApiSearch (resource self) params Ret /\
    params !! "id" = not_none (Some (l !!! find_entity self)) /\
    params !! "entity_id" = None.
Proof.
  intros Hps Hb Hentity Hid Hnoent Hself.
  destruct (find_calls_get (Paged:=Paged) (Json:=Json) table self ps pos kw l kwargs
              Hps Hb Hentity) as [Hfind Hb'].
  edestruct (_get_succeeds (Paged:=Paged) (Json:=Json) table self) as (R0 & HR0 & Hget);
    [exact Hb' | exact Hself |].
  eexists. split; [by rewrite Hfind|]. split.
  - rewrite filter_not_none_lookup.
    rewrite (rename_loop_frame _ _ _ "id" (proj1 (untouched_spec table "id") Hid) HR0).
    by rewrite search_args_id, get_locals_entity.
  - rewrite filter_not_none_lookup.
    erewrite (rename_loop_fresh _ _ _ "entity_id" (not_wire_key_spec _ _ Hnoent));
      [done | | exact HR0].
    rewrite search_args_other by compute_done.
    rewrite update_lookup_other; [done|].
    apply find_keywords_not_get. compute_done.
Qed.

(** ** Calls of [find] with one filter or none *)

Lemma rename_loop_none_elsewhere (items : list (string * string)) (kwargs R : dict)
    (x : string) :
  (forall k w, (k, w) ∈ items -> k ≠ w -> k ≠ x /\ w ≠ x) ->
  (forall y u, y ≠ x -> kwargs !! y = Some u -> u = PyNone) ->
  rename_loop items kwargs = inr R ->
  forall y u, y ≠ x -> R !! y = Some u -> u = PyNone.
Proof.
  revert kwargs. induction items as [|[k v] items IH]; intros kwargs Hx Hnone HR.
  - simpl in HR. by injection HR as <-.
  - rewrite rename_loop_cons in HR.
    refine (IH _ (fun k' w' Hin => Hx k' w' (list_elem_of_further _ _ _ Hin)) _ HR).
    clear IH HR. destruct (kwargs !! k) as [z|] eqn:Hk; [|done].
    destruct (String.eqb k v) eqn:Hkv; [done|]. apply String.eqb_neq in Hkv.
    destruct (Hx k v) as [Hkx Hvx]; [left | done |].
    intros y u Hy Hu. apply lookup_delete_Some in Hu as [_ Hu].
    apply lookup_insert_Some in Hu as [[_ <-]|[_ Hu]]; [|by apply (Hnone y)].
    by apply (Hnone k).
Qed.

(** A mapping whose only value other than [None] sits at a key that the
    table leaves alone is normalised to that one binding. *)
Lemma search_params_single (table : list (string * string)) (P : dict)
    (x : string) (v : pyval) :
  untouched table x -> P !! x = Some v -> v ≠ PyNone ->
  (forall y u, y ≠ x -> P !! y = Some u -> u = PyNone) ->
  _search_params table P = inr {[ x := v ]}.
Proof.
  intros Hx' HP Hv Hnone. pose proof (proj1 (untouched_spec table x) Hx') as Hx.
  destruct (search_params_eq table P) as (R0 & HR0 & ->). f_equal.
  apply map_eq. intros y. rewrite filter_not_none_lookup.
  destruct (decide (y = x)) as [->|Hy].
  - rewrite (rename_loop_frame table P R0 x Hx HR0), HP, lookup_singleton_eq.
    by destruct v.
  - rewrite lookup_singleton_ne by done.
    destruct (R0 !! y) as [u|] eqn:Hu; [|done].
    by rewrite (rename_loop_none_elsewhere table P R0 x Hx Hnone HR0 y u Hy Hu).
Qed.

Lemma update_lookup_Some (items : list (string * pyval)) (d : dict) (y : string) (u : pyval) :
  update d items !! y = Some u -> (y, u) ∈ items \/ d !! y = Some u.
Proof.
  revert d. induction items as [|[n v] items IH]; intros d H; [by right|].
  rewrite update_cons in H. apply IH in H as [H|H]; [left; by right|].
  apply lookup_insert_Some in H as [[<- <-]|[_ H]]; [left; left | by right].
Qed.

Lemma bind_keywords_empty (ps : signature) :
  Forall (fun p => is_Some p.2) ps ->
  bind_keywords ps ∅ = Some ((fun p => (p.1, default PyNone p.2)) <$> ps).
Proof.
  induction ps as [|[n d] ps IH]; intros H; [done|].
  apply Forall_cons in H as [[v Hd] H]. simpl in Hd. subst d.
  simpl. rewrite lookup_empty, (IH H). done.
Qed.

(** A call without keywords. *)
Lemma bind_args_no_keywords (ps : signature) (pos : list pyval)
    (bound : list (string * pyval)) (rest : signature) :
  bind_positional ps pos = Some (bound, rest) ->
  Forall (fun p => is_Some p.2) rest ->
  bind_args ps pos ∅ =
  inr (list_to_map (bound ++ ((fun p => (p.1, default PyNone p.2)) <$> rest))%list, ∅).
Proof.
  intros Hb Hrest. unfold bind_args, bind_locals.
  rewrite (contains_false ∅ "self") by apply lookup_empty. rewrite Hb.
  rewrite existsb_none by (intros nv _; apply contains_false, lookup_empty).
  rewrite (bind_keywords_empty rest Hrest). simpl. by rewrite map_filter_empty.
Qed.

Lemma locals_none (entries : list (string * pyval)) (n1 n : string) :
  Forall (fun p => p.1 = n1 \/ p.2 = PyNone) entries -> n ≠ n1 ->
  (list_to_map entries : dict) !!! n = PyNone.
Proof.
  intros H Hn. rewrite lookup_total_alt.
  destruct (list_to_map entries !! n) as [u|] eqn:Hu; [|done]. simpl.
  apply elem_of_list_to_map_2 in Hu.
  rewrite Forall_forall in H. by destruct (H _ Hu) as [?|?].
Qed.

Lemma get_locals_lookup (a1 a2 a3 a4 a5 a6 a7 : pyval) :
  let l' : dict :=
    list_to_map [("keyword", a1); ("entity_id", a2); ("sort", a3); ("include_test", a4);
                 ("page", a5); ("size", a6); ("locale", a7)] in
  l' !!! "keyword" = a1 /\ l' !!! "entity_id" = a2 /\ l' !!! "sort" = a3 /\
  l' !!! "include_test" = a4 /\ l' !!! "page" = a5 /\ l' !!! "size" = a6 /\
  l' !!! "locale" = a7.
Proof.
  intros l'. unfold l'. cbn [list_to_map foldr uncurry fst snd].
  repeat (split; [apply lookup_total_correct;
                  repeat (rewrite lookup_insert_ne by done); apply lookup_insert_eq|]).
  apply lookup_total_correct. repeat (rewrite lookup_insert_ne by done). apply lookup_insert_eq.
Qed.

(** A call of [find] without extra keywords in which [sort] or [keyword] is
    the only parameter that is not [None]. *)
Lemma find_single {Paged Json : Type} (table : list (string * string)) (self : query_type)
    (ps : signature) (pos : list pyval) (kw l : dict) (n1 : string) (v : pyval) :
  find_sig self = Some ps ->
  bind_args ps pos kw = inr (l, ∅) ->
  n1 ∈ ["sort"; "keyword"] ->
  l !!! n1 = v -> v ≠ PyNone ->
  (forall n, n ≠ n1 -> l !!! n = PyNone) ->
  untouched table n1 ->
  @find Paged Json table self pos kw = ApiSearch (resource self) {[ n1 := v ]} Ret.
Proof.
  intros Hps Hb Hn1 Hv Hv' Hnone Hun.
  destruct (find_calls_get (Paged:=Paged) (Json:=Json) table self ps pos kw l ∅ Hps Hb
              (lookup_empty _)) as [-> Hb'].
  apply (_get_eq table self _ _ _ _ _ Hb').
  2:{ apply lookup_singleton_ne. intros ->. clear -Hn1. revert Hn1. compute_done. }
  destruct (get_locals_lookup (l !!! "keyword") (l !!! find_entity self) (l !!! "sort")
              (l !!! "include_test") (l !!! "page") (l !!! "size") (l !!! "locale"))
    as (Hk & He & Hs & Hi & Hp & Hz & Hl).
  apply search_params_single; [done | | done |].
  - rewrite search_args_named.
    + f_equal. rewrite <- Hv. names_in Hn1 ltac:(done).
    + names_in Hn1 ltac:(compute_done).
  - intros y u Hy Hu. unfold search_args in Hu.
    apply update_lookup_Some in Hu as [Hu|Hu].
    + rewrite Hk, He, Hs, Hi, Hp, Hz, Hl in Hu.
      entries_in Hu ltac:(apply Hnone; first [exact Hy | names_in Hn1 ltac:(by destruct self)]).
    + apply update_lookup_Some in Hu as [Hu|Hu]; [|by rewrite lookup_empty in Hu].
      destruct self; simpl in Hps; try discriminate Hps; simpl in Hu;
        entries_in Hu ltac:(apply Hnone; names_in Hn1 ltac:(discriminate)).
Qed.

(** A call of [find] without extra keywords in which every parameter is
    [None]. *)
Lemma find_nothing {Paged Json : Type} (table : list (string * string)) (self : query_type)
    (ps : signature) (pos : list pyval) (kw l : dict) :
  find_sig self = Some ps ->
  bind_args ps pos kw = inr (l, ∅) ->
  (forall n, l !!! n = PyNone) ->
  @find Paged Json table self pos kw = ApiSearch (resource self) ∅ Ret.
Proof.
  intros Hps Hb Hnone.
  destruct (find_calls_get (Paged:=Paged) (Json:=Json) table self ps pos kw l ∅ Hps Hb
              (lookup_empty _)) as [-> Hb'].
  apply (_get_eq table self _ _ _ _ _ Hb'); [|apply lookup_empty].
  destruct (get_locals_lookup (l !!! "keyword") (l !!! find_entity self) (l !!! "sort")
              (l !!! "include_test") (l !!! "page") (l !!! "size") (l !!! "locale"))
    as (Hk & He & Hs & Hi & Hp & Hz & Hl).
  apply search_params_none_only. intros y u Hu. unfold search_args in Hu.
  apply update_lookup_Some in Hu as [Hu|Hu].
  - rewrite Hk, He, Hs, Hi, Hp, Hz, Hl in Hu. entries_in Hu ltac:(apply Hnone).
  - apply update_lookup_Some in Hu as [Hu|Hu]; [|by rewrite lookup_empty in Hu].
    destruct self; simpl in Hps; try discriminate Hps; simpl in Hu;
      entries_in Hu ltac:(apply Hnone).
Qed.

(** X10: [find()] without any argument on the attractions, classifications
    and venues queries searches with an empty mapping, whatever the table;
    on the events query it searches with the default [sort="date,asc"]
    alone, when the table leaves [sort] alone. *)
Theorem find_without_arguments {Paged Json : Type} (table : list (string * string))
    (self : query_type) :
  (self ∈ [AttractionQuery; ClassificationQuery; VenueQuery] ->
   @find Paged Json table self [] ∅ = ApiSearch (resource self) ∅ Ret) /\
  (untouched table "sort" ->
   @find Paged Json table EventQuery [] ∅ =
     ApiSearch "events" {[ "sort" := PyStr "date,asc" ]} Ret).
Proof.
  split.
  - intros Hself.
    assert (exists ps, find_sig self = Some ps /\ Forall (fun p => p.2 = Some PyNone) ps)
      as (ps & Hps & Hdef).
    { repeat (apply elem_of_cons in Hself as [->|Hself];
              [eexists; split; [reflexivity | compute_done]|]).
      by apply elem_of_nil in Hself. }
    apply (find_nothing table self ps [] ∅
             (list_to_map ([] ++ ((fun p => (p.1, default PyNone p.2)) <$> ps))%list) Hps).
    + apply bind_args_no_keywords; [done|].
      eapply Forall_impl; [exact Hdef|]. intros p ->. eauto.
    + intros n. rewrite lookup_total_alt.
      destruct (list_to_map _ !! n) as [u|] eqn:Hu; [|done]. simpl.
      apply elem_of_list_to_map_2 in Hu. simpl in Hu.
      apply list_elem_of_fmap in Hu as (p & [= -> ->] & Hp).
      rewrite Forall_forall in Hdef. by rewrite (Hdef p Hp).
  - intros Hsort.
    apply (find_single table EventQuery EventQuery_find_sig [] ∅
             (list_to_map ([] ++ ((fun p => (p.1, default PyNone p.2)) <$> EventQuery_find_sig))%list)
             "sort" (PyStr "date,asc") eq_refl).
    + apply bind_args_no_keywords; [reflexivity | compute_done].
    + compute_done.
    + compute_done.
    + discriminate.
    + intros n Hn. apply locals_none with (n1 := "sort"); [compute_done | done].
    + exact Hsort.
Qed.

(** X11: the first positional argument of [find] is [sort] on the
    attractions, classifications and events queries and [keyword] on the
    venues query: [find(v)] searches with [sort=v] alone on the former and
    with [keyword=v] alone on the latter, when [v] is not [None] and the
    table leaves [sort] and [keyword] alone. *)
Theorem find_first_positional {Paged Json : Type} (table : list (string * string))
    (self : query_type) (v : pyval) :
  v ≠ PyNone -> untouched table "sort" -> untouched table "keyword" ->
  (self ∈ [AttractionQuery; ClassificationQuery; EventQuery] ->
   @find Paged Json table self [v] ∅ = ApiSearch (resource self) {[ "sort" := v ]} Ret) /\
  (@find Paged Json table VenueQuery [v] ∅ = ApiSearch "venues" {[ "keyword" := v ]} Ret).
Proof.
  intros Hv Hsort Hkeyword.
  assert (Hfirst : forall q ps n1 rest,
            find_sig q = Some ps -> ps = (n1, Some PyNone) :: rest \/
                                    ps = (n1, Some (PyStr "date,asc")) :: rest ->
            n1 ∈ ["sort"; "keyword"] -> untouched table n1 ->
            Forall (fun p => p.2 = Some PyNone) rest ->
            @find Paged Json table q [v] ∅ = ApiSearch (resource q) {[ n1 := v ]} Ret).
  { intros q ps n1 rest Hps Hshape Hn1 Hun Hrest.
    apply (find_single table q ps [v] ∅
             (list_to_map ([(n1, v)] ++ ((fun p => (p.1, default PyNone p.2)) <$> rest))%list)
             n1 v Hps).
    - apply bind_args_no_keywords.
      + by destruct Hshape as [-> | ->].
      + eapply Forall_impl; [exact Hrest|]. intros p ->. eauto.
    - exact Hn1.
    - apply lookup_total_correct. simpl. apply lookup_insert_eq.
    - exact Hv.
    - intros n Hn. apply locals_none with (n1 := n1); [|done].
      apply Forall_cons. split; [by left|].
      apply Forall_fmap. eapply Forall_impl; [exact Hrest|].
      intros p Hp. right. simpl. by rewrite Hp.
    - exact Hun. }
  split.
  - intros Hself.
    repeat (apply elem_of_cons in Hself as [->|Hself];
            [eapply (Hfirst _ _ "sort");
             [reflexivity | first [left; reflexivity | right; reflexivity]
             | compute_done | done | compute_done]|]).
    by apply elem_of_nil in Hself.
  - eapply (Hfirst VenueQuery _ "keyword");
      [reflexivity | left; reflexivity | compute_done | done | compute_done].
Qed.

(** ** The filters of [find] on their way to the client *)

Lemma update_named (l d : dict) (names : list string) (n : string) :
  n ∈ names -> update d ((fun m => (m, l !!! m)) <$> names) !! n = Some (l !!! n).
Proof.
  revert d. induction names as [|m names IH]; intros d Hn.
  - by apply elem_of_nil in Hn.
  - rewrite fmap_cons, update_cons. destruct (decide (n ∈ names)) as [Hin|Hout].
    + by apply IH.
    + apply elem_of_cons in Hn as [->|Hn]; [|done].
      rewrite update_lookup_other.
      * apply lookup_insert_eq.
      * rewrite <- list_fmap_compose. intros Hin. apply Hout.
        apply list_elem_of_fmap in Hin as (m' & -> & Hm'). exact Hm'.
Qed.

Lemma find_keywords_named (self : query_type) (l : dict) :
  find_keywords self l = (fun m => (m, l !!! m)) <$> (find_keywords self l).*1.
Proof. by destruct self. Qed.

Lemma find_params_split (self : query_type) (ps : signature) (l : dict) (n : string) :
  find_sig self = Some ps -> n ∈ param_names ps -> n ≠ find_entity self ->
  n ∈ ["keyword"; "sort"; "include_test"; "page"; "size"; "locale"] \/
  ((n ∉ search_keys) /\ n ∈ (find_keywords self l).*1).
Proof.
  intros Hps Hn Hne.
  destruct self; simpl in Hps; try discriminate Hps; injection Hps as <-;
    unfold param_names in Hn; simpl in Hn;
    names_in Hn ltac:(first [by destruct Hne
                            | left; compute_done
                            | right; split; compute_done]).
Qed.

(** The mapping that a call of [find] hands to the rename loop: every
    parameter of [find] under its own name, except the ID parameter, which
    is at [id]; the extra keywords as they are. *)
Lemma find_merged {Paged Json : Type} (table : list (string * string)) (self : query_type)
    (ps : signature) (pos : list pyval) (kw l kwargs : dict) :
  find_sig self = Some ps ->
  bind_args ps pos kw = inr (l, kwargs) ->
  kwargs !! "entity_id" = None ->
  "self" ∉ wire_keys table ->
  exists M R0,
    rename_loop table M = inr R0 /\
    @find Paged Json table self pos kw =
      ApiSearch (resource self) (filter (fun kv => kv.2 ≠ PyNone) R0) Ret /\
    (forall n, n ∈ param_names ps -> n ≠ find_entity self -> M !! n = Some (l !!! n)) /\
    M !! "id" = Some (l !!! find_entity self) /\
    (forall n, n ∉ search_keys -> n ∉ param_names ps -> M !! n = kwargs !! n).
Proof.
  intros Hps Hb Hentity Hself.
  destruct (find_calls_get (Paged:=Paged) (Json:=Json) table self ps pos kw l kwargs
              Hps Hb Hentity) as [Hfind Hb'].
  edestruct (_get_succeeds (Paged:=Paged) (Json:=Json) table self) as (R0 & HR0 & Hget);
    [exact Hb' | exact Hself |].
  destruct (get_locals_lookup (l !!! "keyword") (l !!! find_entity self) (l !!! "sort")
              (l !!! "include_test") (l !!! "page") (l !!! "size") (l !!! "locale"))
    as (Hk & He & Hs & Hi & Hp & Hz & Hl).
  eexists _, R0. split; [exact HR0|]. split; [by rewrite Hfind|]. split; [|split].
  - intros n Hn Hne.
    destruct (find_params_split self ps l n Hps Hn Hne) as [Hnamed|[Hkey Hfw]].
    + rewrite search_args_named by done. f_equal.
      names_in Hnamed ltac:(done).
    + rewrite search_args_other by done.
      rewrite (find_keywords_named self l). by apply update_named.
  - by rewrite search_args_id, He.
  - intros n Hkey Hn. rewrite search_args_other by done.
    apply update_lookup_other. intros Hin. apply Hn.
    by apply (find_keywords_params self ps l).
Qed.

(** Every key that [_get] sets itself, [id] apart, is a parameter of
    [find]. *)
Lemma search_keys_params (self : query_type) (ps : signature) (n : string) :
  find_sig self = Some ps -> n ∈ search_keys -> n ≠ "id" -> n ∈ param_names ps.
Proof.
  intros Hps Hn Hne.
  destruct self; simpl in Hps; try discriminate Hps; injection Hps as <-;
    unfold search_keys in Hn;
    names_in Hn ltac:(first [by destruct Hne | compute_done]).
Qed.

(** X12: a parameter of [find] other than the ID parameter, and an extra
    keyword other than [id], reach the client under their own name with
    the value given when the table leaves that name alone (and renames
    nothing to [self]); a [None] is left out.  An extra keyword [id] is not
    sent: what goes out at [id], when the table leaves [id] alone, is the
    ID parameter of [find]. *)
Theorem find_sends_filter {Paged Json : Type} (table : list (string * string))
    (self : query_type) (ps : signature) (pos : list pyval) (kw l kwargs : dict) :
  find_sig self = Some ps ->
  bind_args ps pos kw = inr (l, kwargs) ->
  kwargs !! "entity_id" = None ->
  "self" ∉ wire_keys table ->
  exists params,
    @find Paged Json table self pos kw = ApiSearch (resource self) params Ret /\
    (forall n, n ∈ param_names ps -> n ≠ find_entity self -> untouched table n ->
       params !! n = not_none (Some (l !!! n))) /\
    (forall n, n ≠ "id" -> n ∉ param_names ps -> untouched table n ->
       params !! n = not_none (kwargs !! n)) /\
    (untouched table "id" -> params !! "id" = not_none (Some (l !!! find_entity self))).
Proof.
  intros Hps Hb Hentity Hself.
  destruct (find_merged (Paged:=Paged) (Json:=Json) table self ps pos kw l kwargs
              Hps Hb Hentity Hself) as (M & R0 & HR0 & Hfind & Hnamed & Hid & Hextra).
  eexists. split; [exact Hfind|]. split; [|split].
  - intros n Hn Hne Hun. rewrite filter_not_none_lookup.
    rewrite (rename_loop_frame table M R0 n (proj1 (untouched_spec table n) Hun) HR0).
    by rewrite Hnamed.
  - intros n Hkey Hn Hun. rewrite filter_not_none_lookup.
    rewrite (rename_loop_frame table M R0 n (proj1 (untouched_spec table n) Hun) HR0).
    rewrite Hextra; [done | | done].
    intros Hin. apply Hn. by apply (search_keys_params self).
  - intros Hun. rewrite filter_not_none_lookup.
    rewrite (rename_loop_frame table M R0 "id" (proj1 (untouched_spec table "id") Hun) HR0).
    by rewrite Hid.
Qed.

(** X13: a parameter [K] of [find] other than the ID parameter, for which
    the table has an entry [K -> W] with [K <> W], reaches the client under
    [W] with the value given, and [K] itself is not sent; for a table that
    has each key once, no chain of renames, no other entry renaming to [W]
    and none renaming to [self]. A [None] is left out. *)
Theorem find_renames_filter {Paged Json : Type} (table : list (string * string))
    (self : query_type) (ps : signature) (pos : list pyval) (kw l kwargs : dict)
    (K W : string) :
  find_sig self = Some ps ->
  bind_args ps pos kw = inr (l, kwargs) ->
  kwargs !! "entity_id" = None ->
  "self" ∉ wire_keys table ->
  unique_keys table -> no_chain table ->
  (K, W) ∈ table -> K ≠ W ->
  (forall K', (K', W) ∈ table -> K' ≠ W -> K' = K) ->
  K ∈ param_names ps -> K ≠ find_entity self ->
  exists params,
    @find Paged Json table self pos kw = ApiSearch (resource self) params Ret /\
    params !! W = not_none (Some (l !!! K)) /\
    params !! K = None.
Proof.
  intros Hps Hb Hentity Hself Hu Hc Hin Hne Honly HK HKe.
  destruct (find_merged (Paged:=Paged) (Json:=Json) table self ps pos kw l kwargs
              Hps Hb Hentity Hself) as (M & R0 & HR0 & Hfind & Hnamed & _ & _).
  eexists. split; [exact Hfind|].
  rewrite !filter_not_none_lookup, !(rename_loop_lookup table M R0 _ Hu Hc HR0). split.
  - rewrite decide_False.
    + rewrite (last_renamed_only table M K W (l !!! K)); try done.
      * by apply Hnamed.
      * intros K' HK' Hin' Hne'. by destruct HK'; apply Honly.
    + intros HW. apply elem_of_renamed_keys in HW as (w' & HW & Hne').
      by apply (proj1 (no_chain_spec table) Hc W w' K W).
  - rewrite decide_True; [done|]. apply elem_of_renamed_keys. eauto.
Qed.

(** ** The convenience wrappers *)

Lemma bind_keywords_defaults (ps : signature) (kw : dict) :
  Forall (fun p => is_Some p.2) ps ->
  bind_keywords ps kw =
  Some ((fun p => (p.1, default (default PyNone p.2) (kw !! p.1))) <$> ps).
Proof.
  induction ps as [|[n d] ps IH]; intros H; [done|].
  apply Forall_cons in H as [[v Hd] H]. simpl in Hd. subst d.
  simpl. rewrite (IH H). by destruct (kw !! n).
Qed.

(** A call by keywords only of a method whose parameters all have a
    default. *)
Lemma bind_args_keywords_only (ps : signature) (kw : dict) :
  Forall (fun p => is_Some p.2) ps -> kw !! "self" = None ->
  bind_args ps [] kw =
  inr (list_to_map ((fun p => (p.1, default (default PyNone p.2) (kw !! p.1))) <$> ps),
       filter (fun kv => kv.1 ∉ param_names ps) kw).
Proof.
  intros Hps Hself. unfold bind_args, bind_locals.
  rewrite (contains_false kw "self" Hself). cbn [bind_positional existsb].
  by rewrite (bind_keywords_defaults ps kw Hps).
Qed.

Lemma keyword_locals_lookup (ps : signature) (kw : dict) (n : string) (u : pyval) :
  n ∈ param_names ps -> kw !! n = Some u ->
  (list_to_map ((fun p => (p.1, default (default PyNone p.2) (kw !! p.1))) <$> ps) : dict)
    !!! n = u.
Proof.
  intros Hn Hu. apply lookup_total_correct.
  induction ps as [|[m d] ps IH]; [by apply elem_of_nil in Hn|].
  rewrite fmap_cons. cbn [list_to_map foldr uncurry fst snd].
  destruct (decide (m = n)) as [->|Hne].
  - rewrite lookup_insert_eq. by rewrite Hu.
  - rewrite lookup_insert_ne by done. apply IH.
    unfold param_names in Hn. simpl in Hn. by apply elem_of_cons in Hn as [->|Hn].
Qed.

Lemma find_sig_defaults (self : query_type) (ps : signature) :
  find_sig self = Some ps -> Forall (fun p => is_Some p.2) ps.
Proof.
  intros Hps. destruct self; simpl in Hps; try discriminate Hps; injection Hps as <-;
    compute_done.
Qed.

(** X14: [by_name] on the venues query calls [find] with the venue name as
    [keyword] and with [state_code], next to the extra keywords; an extra
    keyword [keyword] is a [TypeError]. *)
Theorem by_name_forwards {Paged Json : Type} (table : list (string * string))
    (pos : list pyval) (kw l kwargs : dict) :
  bind_args by_name_sig pos kw = inr (l, kwargs) ->
  (kwargs !! "keyword" = None ->
   @by_name Paged Json table VenueQuery pos kw =
     find table VenueQuery []
       (update kwargs [("keyword", l !!! "venue_name"); ("state_code", l !!! "state_code")])) /\
  (is_Some (kwargs !! "keyword") ->
   @by_name Paged Json table VenueQuery pos kw = Raise TypeError).
Proof.
  intros Hb. unfold by_name, VenueQuery_by_name. rewrite Hb. cbn [lift pbind]. split.
  - intros Hfree. rewrite keywords_fresh; [done|].
    intros n Hn. simpl in Hn.
    apply elem_of_cons in Hn as [->|Hn]; [done|].
    apply (bind_args_kwargs_param _ _ _ _ _ n Hb).
    names_in Hn ltac:(compute_done).
  - intros [u Hu]. unfold keywords. cbn [existsb fst].
    by rewrite (contains_true _ _ _ Hu).
Qed.

(** [str] raises nothing but [ValueError]. *)
Lemma py_str_error (v : pyval) (e : exn) : py_str v = inl e -> e = ValueError.
Proof.
  destruct v as [|[|]|z|f|s]; try discriminate. unfold py_str. cbv zeta.
  destruct (int_max_str_digits <? _); [|discriminate].
  intros H. by injection H as <-.
Qed.

(** The number of digits that [digits] writes: more than [k] exactly from
    [10^k] on. *)
Lemma digits_acc_length (fuel : nat) (z : Z) (acc : string) (k : Z) :
  0 < z < 2 ^ Z.of_nat fuel -> 0 <= k ->
  k + Z.of_nat (String.length acc) < Z.of_nat (String.length (PyFloat.digits_acc fuel z acc))
  <-> 10 ^ k <= z.
Proof.
  revert z acc k. induction fuel as [|fuel IH]; intros z acc k Hz Hk.
  - change (2 ^ Z.of_nat 0) with 1 in Hz. lia.
  - cbn [PyFloat.digits_acc]. destruct (Z.ltb_spec z 10) as [Hlt|Hge].
    + cbn [String.length]. destruct (decide (k = 0)) as [->|Hne].
      * change (10 ^ 0) with 1. lia.
      * assert (10 ^ 1 <= 10 ^ k) by (apply Z.pow_le_mono_r; lia).
        change (10 ^ 1) with 10 in *. lia.
    + assert (Hdiv : 0 < z / 10 < 2 ^ Z.of_nat fuel).
      { split; [apply Z.div_str_pos; lia|].
        rewrite Nat2Z.inj_succ, Z.pow_succ_r in Hz by lia.
        apply Z.div_lt_upper_bound; lia. }
      destruct (decide (k = 0)) as [->|Hne].
      * pose proof (proj2 (IH (z / 10) (String (PyFloat.digit_char (z mod 10)) acc) 0
                              Hdiv ltac:(lia))) as Hlen.
        change (10 ^ 0) with 1 in *. cbn [String.length] in Hlen. lia.
      * pose proof (IH (z / 10) (String (PyFloat.digit_char (z mod 10)) acc) (k - 1)
                       Hdiv ltac:(lia)) as Hlen.
        cbn [String.length] in Hlen.
        assert (Hpow : 10 ^ k = 10 * 10 ^ (k - 1)).
        { rewrite <- Z.pow_succ_r by lia. f_equal. lia. }
        rewrite Hpow. destruct Hlen as [H1 H2]. rewrite Nat2Z.inj_succ in H1, H2.
        split; intros H.
        -- assert (H' : 10 ^ (k - 1) <= z / 10) by (apply H1; lia).
           pose proof (Z.mul_div_le z 10 ltac:(lia)) as Hle.
           revert H' Hle. generalize (10 ^ (k - 1)) (z / 10). lia.
        -- assert (H' : 10 ^ (k - 1) <= z / 10) by (apply Z.div_le_lower_bound; lia).
           apply H2 in H'. lia.
Qed.

Lemma digits_length (z k : Z) :
  0 <= z -> 0 < k ->
  k < Z.of_nat (String.length (PyFloat.digits z)) <-> 10 ^ k <= z.
Proof.
  intros Hz Hk. unfold PyFloat.digits.
  destruct (decide (z = 0)) as [->|Hne].
  - change (Z.log2 0) with 0. cbn [Z.to_nat PyFloat.digits_acc String.length].
    change (0 <? 10) with true. cbn [String.length].
    assert (0 < 10 ^ k) by (apply Z.pow_pos_nonneg; lia). lia.
  - pose proof (digits_acc_length (S (Z.to_nat (Z.log2 z))) z "" k) as H.
    cbn [String.length] in H. rewrite Z.add_0_r in H. apply H; [|lia].
    split; [lia|]. rewrite Nat2Z.inj_succ, Z2Nat.id by apply Z.log2_nonneg.
    apply Z.log2_spec. lia.
Qed.

(** [str] of an integer raises exactly when the integer is [10^4300] or
    more in absolute value, which is when it has more than
    [int_max_str_digits] digits; of any other scalar it raises nothing. *)
Lemma py_str_raises (v : pyval) :
  py_str v = inl ValueError <->
  exists z, v = PyInt z /\ 10 ^ int_max_str_digits <= Z.abs z.
Proof.
  assert (Hlimit : 0 < int_max_str_digits) by reflexivity.
  split.
  - destruct v as [|[|]|z|f|s]; try discriminate. unfold py_str. cbv zeta.
    destruct (Z.ltb_spec int_max_str_digits
                (Z.of_nat (String.length (PyFloat.digits (Z.abs z))))) as [Hlt|Hge];
      [|discriminate].
    intros _. exists z. split; [reflexivity|].
    apply (digits_length (Z.abs z) int_max_str_digits); [apply Z.abs_nonneg | exact Hlimit | exact Hlt].
  - intros (z & -> & Hle). unfold py_str. cbv zeta.
    apply (digits_length (Z.abs z) int_max_str_digits) in Hle;
      [|apply Z.abs_nonneg | exact Hlimit].
    destruct (Z.ltb_spec int_max_str_digits
                (Z.of_nat (String.length (PyFloat.digits (Z.abs z))))) as [Hlt|Hge];
      [reflexivity|].
    exfalso. apply (Z.lt_irrefl int_max_str_digits).
    eapply Z.lt_le_trans; [exact Hle | exact Hge].
Qed.

(** The shortest integers that [str] refuses. *)
Lemma py_str_digit_limit :
  py_str (PyInt (10 ^ 4300)) = inl ValueError /\
  py_str (PyInt (- 10 ^ 4300)) = inl ValueError.
Proof.
  assert (Hpos : 0 <= 10 ^ int_max_str_digits) by (apply Z.pow_nonneg; discriminate).
  split; apply py_str_raises; eexists; (split; [reflexivity|]).
  - rewrite Z.abs_eq by exact Hpos. apply Z.le_refl.
  - rewrite Z.abs_opp, Z.abs_eq by exact Hpos. apply Z.le_refl.
Qed.

(** A latitude too long for [str] stops [by_location] before [find] is
    called, whatever the rest of the call is. *)
Lemma by_location_digit_limit {Paged Json : Type} (table : list (string * string))
    (z : Z) (longitude : pyval) :
  10 ^ int_max_str_digits <= Z.abs z ->
  @by_location Paged Json table EventQuery [PyInt z; longitude] ∅ = Raise ValueError.
Proof.
  intros Hz.
  assert (Hstr : py_str (PyInt z) = inl ValueError) by (apply py_str_raises; eauto).
  assert (Hb : bind_args by_location_sig [PyInt z; longitude] ∅ =
               inr (list_to_map [("latitude", PyInt z); ("longitude", longitude);
                                 ("radius", PyStr "10"); ("unit", PyStr "miles");
                                 ("sort", PyStr "relevance,desc")], ∅)) by reflexivity.
  unfold by_location, EventQuery_by_location. rewrite Hb. cbn [lift pbind].
  assert (Hl : (list_to_map [("latitude", PyInt z); ("longitude", longitude);
                             ("radius", PyStr "10"); ("unit", PyStr "miles");
                             ("sort", PyStr "relevance,desc")] : dict) !!! "latitude"
               = PyInt z) by reflexivity.
  rewrite Hl, Hstr. reflexivity.
Qed.

(** The call of [find] that [by_location] makes once its arguments are
    bound and turned to text. *)
Lemma by_location_calls_find {Paged Json : Type} (table : list (string * string))
    (pos : list pyval) (kw l kwargs : dict) (lat long radius : string) :
  bind_args by_location_sig pos kw = inr (l, kwargs) ->
  py_str (l !!! "latitude") = inr lat ->
  py_str (l !!! "longitude") = inr long ->
  py_str (l !!! "radius") = inr radius ->
  kwargs !! "latlong" = None ->
  @by_location Paged Json table EventQuery pos kw =
    find table EventQuery []
      (update kwargs
         [("latlong", PyStr (lat ++ "," ++ long)); ("radius", PyStr radius);
          ("unit", l !!! "unit"); ("sort", l !!! "sort")]).
Proof.
  intros Hb Hlat Hlong Hradius Hfree.
  unfold by_location, EventQuery_by_location. rewrite Hb. cbn [lift pbind].
  rewrite Hlat. cbn [lift pbind]. rewrite Hlong. cbn [lift pbind].
  rewrite Hradius. cbn [lift pbind].
  clear Hlat Hlong Hradius. rewrite keywords_fresh; [reflexivity|].
  intros n Hn. simpl in Hn.
  apply elem_of_cons in Hn as [->|Hn]; [exact Hfree|].
  apply (bind_args_kwargs_param _ _ _ _ _ n Hb).
  names_in Hn ltac:(compute_done).
Qed.

(** X15: [by_location] on the events query turns the latitude, the
    longitude and the radius to text with [str], in this order.  When one
    of them raises, which [str] does for an integer of more than 4300
    digits, [by_location] raises that exception and [find] is not called.
    Otherwise it calls [find] with [latlong] the text of the latitude, a
    comma and the text of the longitude, with [radius] the text of the
    radius, and with [unit] and [sort], next to the extra keywords; an
    extra keyword [latlong] is then a [TypeError]. *)
Theorem by_location_forwards {Paged Json : Type} (table : list (string * string))
    (pos : list pyval) (kw l kwargs : dict) :
  bind_args by_location_sig pos kw = inr (l, kwargs) ->
  match py_str (l !!! "latitude"), py_str (l !!! "longitude"), py_str (l !!! "radius") with
  | inr lat, inr long, inr radius =>
      (kwargs !! "latlong" = None ->
       @by_location Paged Json table EventQuery pos kw =
         find table EventQuery []
           (update kwargs
              [("latlong", PyStr (lat ++ "," ++ long)); ("radius", PyStr radius);
               ("unit", l !!! "unit"); ("sort", l !!! "sort")])) /\
      (is_Some (kwargs !! "latlong") ->
       @by_location Paged Json table EventQuery pos kw = Raise TypeError)
  | inl e, _, _ | inr _, inl e, _ | inr _, inr _, inl e =>
      @by_location Paged Json table EventQuery pos kw = Raise e
  end.
Proof.
  intros Hb.
  destruct (py_str (l !!! "latitude")) as [e|lat] eqn:Hlat.
  { unfold by_location, EventQuery_by_location. rewrite Hb. cbn [lift pbind].
    rewrite Hlat. reflexivity. }
  destruct (py_str (l !!! "longitude")) as [e|long] eqn:Hlong.
  { unfold by_location, EventQuery_by_location. rewrite Hb. cbn [lift pbind].
    rewrite Hlat. cbn [lift pbind]. rewrite Hlong. reflexivity. }
  destruct (py_str (l !!! "radius")) as [e|radius] eqn:Hradius.
  { unfold by_location, EventQuery_by_location. rewrite Hb. cbn [lift pbind].
    rewrite Hlat. cbn [lift pbind]. rewrite Hlong. cbn [lift pbind].
    rewrite Hradius. reflexivity. }
  split.
  - intros Hfree. exact (by_location_calls_find table pos kw l kwargs lat long radius
                           Hb Hlat Hlong Hradius Hfree).
  - intros [u Hu]. unfold by_location, EventQuery_by_location. rewrite Hb. cbn [lift pbind].
    rewrite Hlat. cbn [lift pbind]. rewrite Hlong. cbn [lift pbind].
    rewrite Hradius. cbn [lift pbind]. clear Hlat Hlong Hradius.
    unfold keywords. cbn [existsb fst].
    rewrite (contains_true _ _ _ Hu). reflexivity.
Qed.

Lemma by_location_shape {Paged Json : Type} (table : list (string * string))
    (pos : list pyval) (kw : dict) :
  @raises_or_searches Paged Json [TypeError; ValueError]
    "events" (by_location table EventQuery pos kw).
Proof.
  unfold by_location, EventQuery_by_location.
  destruct (bind_args by_location_sig pos kw) as [e|[l kwargs]] eqn:Hb.
  { apply bind_args_error in Hb as ->. apply raises_or_searches_raise. left. }
  cbn [lift pbind].
  destruct (py_str (l !!! "latitude")) as [e|lat] eqn:Hlat.
  { apply py_str_error in Hlat as ->. apply raises_or_searches_raise. right. left. }
  cbn [lift pbind].
  destruct (py_str (l !!! "longitude")) as [e|long] eqn:Hlong.
  { apply py_str_error in Hlong as ->. apply raises_or_searches_raise. right. left. }
  cbn [lift pbind].
  destruct (py_str (l !!! "radius")) as [e|radius] eqn:Hradius.
  { apply py_str_error in Hradius as ->. apply raises_or_searches_raise. right. left. }
  cbn [lift pbind]. clear Hlat Hlong Hradius.
  destruct (keywords _ kwargs) as [e|kws] eqn:Hk.
  { apply keywords_error in Hk as ->. apply raises_or_searches_raise. left. }
  cbn [lift pbind].
  apply (raises_or_searches_more [TypeError]); [|apply (find_shape table EventQuery)].
  intros e He. apply elem_of_cons. by left; apply list_elem_of_singleton in He.
Qed.

Lemma by_name_shape {Paged Json : Type} (table : list (string * string))
    (pos : list pyval) (kw : dict) :
  @raises_or_searches Paged Json [TypeError] "venues" (by_name table VenueQuery pos kw).
Proof.
  unfold by_name, VenueQuery_by_name.
  destruct (bind_args by_name_sig pos kw) as [e|[l kwargs]] eqn:Hb.
  { apply bind_args_error in Hb as ->. apply raises_or_searches_raise. left. }
  cbn [lift pbind]. destruct (keywords _ kwargs) as [e|kws] eqn:Hk.
  { apply keywords_error in Hk as ->. apply raises_or_searches_raise. left. }
  cbn [lift pbind]. apply (find_shape table VenueQuery).
Qed.

(** X16: [by_location] on the events query either raises [TypeError] or
    [ValueError] before the client is asked anything, or makes exactly one
    call, [_search] on ["events"] with a mapping that holds no [None], and
    ends as the client does; [by_name] on the venues query does the same
    on ["venues"], with [TypeError] the only exception of its own.  On any
    other query class the run of either ends in [AttributeError], the
    client's state is as it was and no call was made. *)
Theorem wrappers_call_search_once {Paged Json W : Type} (table : list (string * string))
    (c : api_client Paged Json W) (self : query_type) (pos : list pyval) (kw : dict) (w : W) :
  (if decide (self = EventQuery)
   then raised_or_searched c w [TypeError; ValueError] "events"
          (run c (by_location table self pos kw) w [])
   else run c (by_location table self pos kw) w [] = (inl AttributeError, w, [])) /\
  (if decide (self = VenueQuery)
   then raised_or_searched c w [TypeError] "venues" (run c (by_name table self pos kw) w [])
   else run c (by_name table self pos kw) w [] = (inl AttributeError, w, [])).
Proof.
  split.
  - destruct (decide (self = EventQuery)) as [->|Hne].
    + apply run_raises_or_searches, by_location_shape.
    + assert (H : @by_location Paged Json table self pos kw = Raise AttributeError)
        by (destruct self; first [reflexivity | by destruct Hne]).
      rewrite H. reflexivity.
  - destruct (decide (self = VenueQuery)) as [->|Hne].
    + apply run_raises_or_searches, by_name_shape.
    + assert (H : @by_name Paged Json table self pos kw = Raise AttributeError)
        by (destruct self; first [reflexivity | by destruct Hne]).
      rewrite H. reflexivity.
Qed.

(** A call of [find] by keywords only. *)
Lemma find_by_keywords {Paged Json : Type} (table : list (string * string))
    (self : query_type) (ps : signature) (kws : dict) :
  find_sig self = Some ps ->
  kws !! "self" = None -> kws !! "entity_id" = None ->
  "self" ∉ wire_keys table ->
  exists params,
    @find Paged Json table self [] kws = ApiSearch (resource self) params Ret /\
    (forall n u, n ∈ param_names ps -> n ≠ find_entity self -> untouched table n ->
       kws !! n = Some u -> params !! n = not_none (Some u)).
Proof.
  intros Hps Hself Hentity Hnoself.
  pose proof (bind_args_keywords_only ps kws (find_sig_defaults self ps Hps) Hself) as Hb.
  edestruct (find_merged (Paged:=Paged) (Json:=Json) table self ps [] kws)
    as (M & R0 & HR0 & Hfind & Hnamed & _ & _); [exact Hps | exact Hb | | exact Hnoself |].
  { apply map_lookup_filter_None. by left. }
  eexists. split; [exact Hfind|].
  intros n u Hn Hne Hun Hu. rewrite filter_not_none_lookup.
  rewrite (rename_loop_frame table M R0 n (proj1 (untouched_spec table n) Hun) HR0).
  rewrite (Hnamed n Hn Hne). by rewrite (keyword_locals_lookup ps kws n u Hn Hu).
Qed.

(** X17: the venue name given to [by_name] reaches the client as
    [keyword], on the resource ["venues"], when it is not [None], the call
    has no extra keyword [keyword] or [entity_id], and the table leaves
    [keyword] alone and renames nothing to [self]. *)
Theorem by_name_searches_keyword {Paged Json : Type} (table : list (string * string))
    (pos : list pyval) (kw l kwargs : dict) :
  bind_args by_name_sig pos kw = inr (l, kwargs) ->
  kwargs !! "keyword" = None -> kwargs !! "entity_id" = None ->
  l !!! "venue_name" ≠ PyNone ->
  untouched table "keyword" -> "self" ∉ wire_keys table ->
  exists params,
    @by_name Paged Json table VenueQuery pos kw = ApiSearch "venues" params Ret /\
    params !! "keyword" = Some (l !!! "venue_name").
Proof.
  intros Hb Hfree Hentity Hname Hun Hself.
  assert (Hcall : @by_name Paged Json table VenueQuery pos kw =
            find table VenueQuery []
              (update kwargs [("keyword", l !!! "venue_name");
                              ("state_code", l !!! "state_code")])).
  { unfold by_name, VenueQuery_by_name. rewrite Hb. cbn [lift pbind].
    rewrite keywords_fresh; [done|].
    intros n Hn. simpl in Hn.
    apply elem_of_cons in Hn as [->|Hn]; [done|].
    apply (bind_args_kwargs_param _ _ _ _ _ n Hb).
    names_in Hn ltac:(compute_done). }
  edestruct (find_by_keywords (Paged:=Paged) (Json:=Json) table VenueQuery VenueQuery_find_sig)
    as (params & Hfind & Hsent); [reflexivity | | | exact Hself |].
  3:{ exists params. split; [rewrite Hcall; exact Hfind|].
      rewrite (Hsent "keyword" (l !!! "venue_name")); [by destruct (l !!! "venue_name") | compute_done | discriminate | done |].
      rewrite update_cons, update_lookup_other by compute_done. apply lookup_insert_eq. }
  - rewrite update_lookup_other by compute_done.
    by apply (bind_args_kwargs_self _ _ _ _ _ Hb).
  - by rewrite update_lookup_other by compute_done.
Qed.

(** X18: when [str] of the latitude, of the longitude and of the radius
    given to [by_location] gives the texts [lat], [long] and [radius],
    these reach the client's search on ["events"] as [latlong], which is
    [lat], a comma and [long], and as [radius]; for a call without an extra
    keyword [latlong] or [entity_id] and a table that leaves [latlong] and
    [radius] alone and renames nothing to [self]. *)
Theorem by_location_searches_text {Paged Json : Type} (table : list (string * string))
    (pos : list pyval) (kw l kwargs : dict) (lat long radius : string) :
  bind_args by_location_sig pos kw = inr (l, kwargs) ->
  py_str (l !!! "latitude") = inr lat ->
  py_str (l !!! "longitude") = inr long ->
  py_str (l !!! "radius") = inr radius ->
  kwargs !! "latlong" = None -> kwargs !! "entity_id" = None ->
  untouched table "latlong" -> untouched table "radius" -> "self" ∉ wire_keys table ->
  exists params,
    @by_location Paged Json table EventQuery pos kw = ApiSearch "events" params Ret /\
    params !! "latlong" = Some (PyStr (lat ++ "," ++ long)) /\
    params !! "radius" = Some (PyStr radius).
Proof.
  intros Hb Hlat Hlong Hrad Hfree Hentity Hlatlong Hradius Hself.
  pose proof (by_location_calls_find (Paged:=Paged) (Json:=Json) table pos kw l kwargs
                lat long radius Hb Hlat Hlong Hrad Hfree) as Hcall.
  clear Hlat Hlong Hrad.
  edestruct (find_by_keywords (Paged:=Paged) (Json:=Json) table EventQuery EventQuery_find_sig)
    as (params & Hfind & Hsent); [reflexivity | | | exact Hself |].
  3:{ exists params. split; [rewrite Hcall; exact Hfind|]. split.
      - rewrite (Hsent "latlong" (PyStr (lat ++ "," ++ long)));
          [reflexivity | compute_done | discriminate | exact Hlatlong |].
        rewrite update_cons, update_lookup_other by compute_done. apply lookup_insert_eq.
      - rewrite (Hsent "radius" (PyStr radius));
          [reflexivity | compute_done | discriminate | exact Hradius |].
        do 2 rewrite update_cons. rewrite update_lookup_other by compute_done.
        apply lookup_insert_eq. }
  - rewrite update_lookup_other by compute_done.
    by apply (bind_args_kwargs_self _ _ _ _ _ Hb).
  - by rewrite update_lookup_other by compute_done.
Qed.

(** * The further properties at concrete inputs *)

Lemma sample_attr_map_no_self : "self" ∉ wire_keys sample_attr_map.
Proof. compute_done. Qed.

Lemma sample_attr_map_untouched (x : string) :
  x ∈ ["id"; "keyword"; "sort"; "page"; "state_code"; "latlong"; "radius"; "genreId"] ->
  untouched sample_attr_map x.
Proof. intros Hx. names_in Hx ltac:(split; compute_done). Qed.

(** X2 at [venue_id="5"], [page=0]. *)
Lemma search_params_origin_witness :
  (exists k, ({[ "venue_id" := PyStr "5"; "page" := PyInt 0 ]} : dict) !! k = Some (PyStr "5")) /\
  (is_Some (({[ "venue_id" := PyStr "5"; "page" := PyInt 0 ]} : dict) !! "venueId") \/
   "venueId" ∈ wire_keys sample_attr_map).
Proof.
  apply (search_params_origin sample_attr_map
           {[ "venue_id" := PyStr "5"; "page" := PyInt 0 ]}
           {[ "venueId" := PyStr "5"; "page" := PyInt 0 ]} "venueId" (PyStr "5")).
  - compute_done.
  - compute_done.
Defined.

(** X3 at a mapping of two unset filters. *)
Lemma search_params_all_none_witness :
  _search_params sample_attr_map {[ "venue_id" := PyNone; "keyword" := PyNone ]} = inr ∅.
Proof.
  apply search_params_all_none. intros k v Hk.
  assert (HF : map_Forall (fun _ u => u = PyNone)
                 ({[ "venue_id" := PyNone; "keyword" := PyNone ]} : dict)) by compute_done.
  exact (HF k v Hk).
Defined.

(** X4 at [venue_id="5"], [page=None]. *)
Lemma search_params_twice_witness :
  _search_params sample_attr_map {[ "venueId" := PyStr "5" ]} = inr {[ "venueId" := PyStr "5" ]}.
Proof.
  apply (search_params_twice sample_attr_map {[ "venue_id" := PyStr "5"; "page" := PyNone ]}).
  - exact sample_attr_map_unique.
  - exact sample_attr_map_no_chain.
  - compute_done.
Defined.

(** X6 at [_get(keyword="rock", page=0)]. *)
Lemma get_sends_named_parameters_witness :
  exists params,
    @_get unit unit sample_attr_map EventQuery []
      {[ "keyword" := PyStr "rock"; "page" := PyInt 0 ]} = ApiSearch "events" params Ret /\
    params !! "keyword" = Some (PyStr "rock") /\
    params !! "page" = Some (PyInt 0) /\
    params !! "id" = None.
Proof.
  destruct (@get_sends_named_parameters unit unit sample_attr_map EventQuery []
              {[ "keyword" := PyStr "rock"; "page" := PyInt 0 ]}
              (list_to_map [("keyword", PyStr "rock"); ("entity_id", PyNone); ("sort", PyNone);
                            ("include_test", PyNone); ("page", PyInt 0); ("size", PyNone);
                            ("locale", PyNone)]) ∅)
    as (params & Hget & Hid & Hnamed).
  - compute_done.
  - exact sample_attr_map_no_self.
  - exists params. split; [exact Hget|]. clear Hget. split; [|split].
    + rewrite (Hnamed "keyword"); [compute_done | compute_done |].
      apply sample_attr_map_untouched. compute_done.
    + rewrite (Hnamed "page"); [compute_done | compute_done |].
      apply sample_attr_map_untouched. compute_done.
    + rewrite Hid; [compute_done|]. apply sample_attr_map_untouched. compute_done.
Defined.

(** X7 at [_get(genreId="KnvZfZ7vAeA")]. *)
Lemma get_passes_extra_keywords_witness :
  exists params,
    @_get unit unit sample_attr_map EventQuery [] {[ "genreId" := PyStr "KnvZfZ7vAeA" ]} =
      ApiSearch "events" params Ret /\
    params !! "genreId" = Some (PyStr "KnvZfZ7vAeA") /\
    params !! "subGenreId" = None.
Proof.
  destruct (@get_passes_extra_keywords unit unit sample_attr_map EventQuery []
              {[ "genreId" := PyStr "KnvZfZ7vAeA" ]}
              (list_to_map [("keyword", PyNone); ("entity_id", PyNone); ("sort", PyNone);
                            ("include_test", PyNone); ("page", PyNone); ("size", PyNone);
                            ("locale", PyNone)])
              {[ "genreId" := PyStr "KnvZfZ7vAeA" ]})
    as (params & Hget & Hextra & Hnot).
  - compute_done.
  - exact sample_attr_map_no_self.
  - exists params. split; [exact Hget|]. clear Hget. split.
    + rewrite (Hextra "genreId"); [compute_done | compute_done |].
      apply sample_attr_map_untouched. compute_done.
    + apply Hnot; compute_done.
Defined.

(** X9 at [VenueQuery.find(venue_id="KovZpZA7AAEA")]. *)
Lemma find_sends_own_id_witness :
  exists params,
    @find unit unit sample_attr_map VenueQuery [] {[ "venue_id" := PyStr "KovZpZA7AAEA" ]} =
      ApiSearch "venues" params Ret /\
    params !! "id" = Some (PyStr "KovZpZA7AAEA") /\
    params !! "entity_id" = None.
Proof.
  destruct (@find_sends_own_id unit unit sample_attr_map VenueQuery VenueQuery_find_sig []
              {[ "venue_id" := PyStr "KovZpZA7AAEA" ]}
              (list_to_map [("keyword", PyNone); ("venue_id", PyStr "KovZpZA7AAEA");
                            ("sort", PyNone); ("state_code", PyNone);
                            ("country_code", PyNone); ("source", PyNone);
                            ("include_test", PyNone); ("page", PyNone); ("size", PyNone);
                            ("locale", PyNone)]) ∅)
    as (params & Hfind & Hid & Hentity).
  - reflexivity.
  - compute_done.
  - compute_done.
  - apply sample_attr_map_untouched. compute_done.
  - compute_done.
  - exact sample_attr_map_no_self.
  - exists params. split; [exact Hfind|]. clear Hfind. split; [|exact Hentity].
    rewrite Hid. compute_done.
Defined.

(** X10 at the sample table. *)
Lemma find_without_arguments_witness :
  @find unit unit sample_attr_map VenueQuery [] ∅ = ApiSearch "venues" ∅ Ret /\
  @find unit unit sample_attr_map EventQuery [] ∅ =
    ApiSearch "events" {[ "sort" := PyStr "date,asc" ]} Ret.
Proof.
  destruct (@find_without_arguments unit unit sample_attr_map VenueQuery) as [Hnone Hevents].
  split.
  - apply Hnone. compute_done.
  - apply Hevents. apply sample_attr_map_untouched. compute_done.
Defined.

(** X11 at [find("name,desc")]. *)
Lemma find_first_positional_witness :
  @find unit unit sample_attr_map AttractionQuery [PyStr "name,desc"] ∅ =
    ApiSearch "attractions" {[ "sort" := PyStr "name,desc" ]} Ret /\
  @find unit unit sample_attr_map VenueQuery [PyStr "name,desc"] ∅ =
    ApiSearch "venues" {[ "keyword" := PyStr "name,desc" ]} Ret.
Proof.
  destruct (@find_first_positional unit unit sample_attr_map AttractionQuery
              (PyStr "name,desc")) as [Hsort Hkeyword].
  - discriminate.
  - apply sample_attr_map_untouched. compute_done.
  - apply sample_attr_map_untouched. compute_done.
  - split; [apply Hsort; compute_done | exact Hkeyword].
Defined.

(** X12 at [VenueQuery.find(state_code="GA", genreId="KnvZfZ7vAeA")]. *)
Lemma find_sends_filter_witness :
  exists params,
    @find unit unit sample_attr_map VenueQuery []
      {[ "state_code" := PyStr "GA"; "genreId" := PyStr "KnvZfZ7vAeA" ]} =
      ApiSearch "venues" params Ret /\
    params !! "state_code" = Some (PyStr "GA") /\
    params !! "genreId" = Some (PyStr "KnvZfZ7vAeA").
Proof.
  destruct (@find_sends_filter unit unit sample_attr_map VenueQuery VenueQuery_find_sig []
              {[ "state_code" := PyStr "GA"; "genreId" := PyStr "KnvZfZ7vAeA" ]}
              (list_to_map [("keyword", PyNone); ("venue_id", PyNone);
                            ("sort", PyNone); ("state_code", PyStr "GA");
                            ("country_code", PyNone); ("source", PyNone);
                            ("include_test", PyNone); ("page", PyNone); ("size", PyNone);
                            ("locale", PyNone)])
              {[ "genreId" := PyStr "KnvZfZ7vAeA" ]})
    as (params & Hfind & Hnamed & Hextra & _).
  - reflexivity.
  - compute_done.
  - compute_done.
  - exact sample_attr_map_no_self.
  - exists params. split; [exact Hfind|]. clear Hfind. split.
    + rewrite (Hnamed "state_code"); [compute_done | compute_done | discriminate |].
      apply sample_attr_map_untouched. compute_done.
    + rewrite (Hextra "genreId"); [compute_done | discriminate | compute_done |].
      apply sample_attr_map_untouched. compute_done.
Defined.

(** X13 at [EventQuery.find(venue_id="KovZpZA7AAEA")]. *)
Lemma find_renames_filter_witness :
  exists params,
    @find unit unit sample_attr_map EventQuery [] {[ "venue_id" := PyStr "KovZpZA7AAEA" ]} =
      ApiSearch "events" params Ret /\
    params !! "venueId" = Some (PyStr "KovZpZA7AAEA") /\
    params !! "venue_id" = None.
Proof.
  destruct (@find_renames_filter unit unit sample_attr_map EventQuery EventQuery_find_sig []
              {[ "venue_id" := PyStr "KovZpZA7AAEA" ]}
              (list_to_map ((fun p => (p.1, default (default PyNone p.2)
                               (({[ "venue_id" := PyStr "KovZpZA7AAEA" ]} : dict) !! p.1)))
                            <$> EventQuery_find_sig)) ∅ "venue_id" "venueId")
    as (params & Hfind & HW & HK).
  - reflexivity.
  - compute_done.
  - compute_done.
  - exact sample_attr_map_no_self.
  - exact sample_attr_map_unique.
  - exact sample_attr_map_no_chain.
  - compute_done.
  - discriminate.
  - intros K' Hin Hne. entries_in Hin ltac:(reflexivity).
  - compute_done.
  - discriminate.
  - exists params. split; [exact Hfind|]. clear Hfind. split; [|exact HK].
    rewrite HW. compute_done.
Defined.

(** X14 at [by_name("Fox Theatre", state_code="GA")]. *)
Lemma by_name_forwards_witness :
  @by_name unit unit sample_attr_map VenueQuery [PyStr "Fox Theatre"]
    {[ "state_code" := PyStr "GA" ]} =
  find sample_attr_map VenueQuery []
    (update ∅ [("keyword", PyStr "Fox Theatre"); ("state_code", PyStr "GA")]).
Proof.
  destruct (@by_name_forwards unit unit sample_attr_map [PyStr "Fox Theatre"]
              {[ "state_code" := PyStr "GA" ]}
              (list_to_map [("venue_name", PyStr "Fox Theatre"); ("state_code", PyStr "GA")])
              ∅) as [Hcall _].
  - compute_done.
  - rewrite Hcall by compute_done. f_equal; compute_done.
Defined.

(** X15 at [by_location(33, -84)]. *)
Lemma by_location_forwards_witness :
  @by_location unit unit sample_attr_map EventQuery [PyInt 33; PyInt (-84)] ∅ =
  find sample_attr_map EventQuery []
    (update ∅ [("latlong", PyStr "33,-84"); ("radius", PyStr "10");
               ("unit", PyStr "miles"); ("sort", PyStr "relevance,desc")]).
Proof.
  pose proof (@by_location_forwards unit unit sample_attr_map [PyInt 33; PyInt (-84)] ∅
                (list_to_map [("latitude", PyInt 33); ("longitude", PyInt (-84));
                              ("radius", PyStr "10"); ("unit", PyStr "miles");
                              ("sort", PyStr "relevance,desc")]) ∅) as H.
  assert (Hlat : py_str ((list_to_map [("latitude", PyInt 33); ("longitude", PyInt (-84));
                                       ("radius", PyStr "10"); ("unit", PyStr "miles");
                                       ("sort", PyStr "relevance,desc")] : dict)
                         !!! "latitude") = inr "33") by compute_done.
  assert (Hlong : py_str ((list_to_map [("latitude", PyInt 33); ("longitude", PyInt (-84));
                                        ("radius", PyStr "10"); ("unit", PyStr "miles");
                                        ("sort", PyStr "relevance,desc")] : dict)
                          !!! "longitude") = inr "-84") by compute_done.
  assert (Hradius : py_str ((list_to_map [("latitude", PyInt 33); ("longitude", PyInt (-84));
                                          ("radius", PyStr "10"); ("unit", PyStr "miles");
                                          ("sort", PyStr "relevance,desc")] : dict)
                            !!! "radius") = inr "10") by compute_done.
  rewrite Hlat, Hlong, Hradius in H. clear Hlat Hlong Hradius.
  destruct H as [Hcall _].
  - compute_done.
  - rewrite Hcall by compute_done. f_equal; compute_done.
Defined.

(** X17 at [by_name("Fox Theatre", state_code="GA")]. *)
Lemma by_name_searches_keyword_witness :
  exists params,
    @by_name unit unit sample_attr_map VenueQuery [PyStr "Fox Theatre"]
      {[ "state_code" := PyStr "GA" ]} = ApiSearch "venues" params Ret /\
    params !! "keyword" = Some (PyStr "Fox Theatre").
Proof.
  destruct (@by_name_searches_keyword unit unit sample_attr_map [PyStr "Fox Theatre"]
              {[ "state_code" := PyStr "GA" ]}
              (list_to_map [("venue_name", PyStr "Fox Theatre"); ("state_code", PyStr "GA")])
              ∅) as (params & Hcall & Hkeyword).
  - compute_done.
  - compute_done.
  - compute_done.
  - compute_done.
  - apply sample_attr_map_untouched. compute_done.
  - exact sample_attr_map_no_self.
  - exists params. split; [exact Hcall|]. clear Hcall. rewrite Hkeyword. compute_done.
Defined.

(** X18 at [by_location(33, -84, 5)]. *)
Lemma by_location_searches_text_witness :
  exists params,
    @by_location unit unit sample_attr_map EventQuery [PyInt 33; PyInt (-84); PyInt 5] ∅ =
      ApiSearch "events" params Ret /\
    params !! "latlong" = Some (PyStr "33,-84") /\
    params !! "radius" = Some (PyStr "5").
Proof.
  destruct (@by_location_searches_text unit unit sample_attr_map
              [PyInt 33; PyInt (-84); PyInt 5] ∅
              (list_to_map [("latitude", PyInt 33); ("longitude", PyInt (-84));
                            ("radius", PyInt 5); ("unit", PyStr "miles");
                            ("sort", PyStr "relevance,desc")]) ∅ "33" "-84" "5")
    as (params & Hcall & Hlatlong & Hradius).
  - compute_done.
  - compute_done.
  - compute_done.
  - compute_done.
  - compute_done.
  - compute_done.
  - apply sample_attr_map_untouched. compute_done.
  - apply sample_attr_map_untouched. compute_done.
  - exact sample_attr_map_no_self.
  - exists params. split; [exact Hcall|]. clear Hcall. split.
    + rewrite Hlatlong. compute_done.
    + rewrite Hradius. compute_done.
Defined.
